(** * Tradebot: signal generation, risk bookkeeping and the order state machine

    A shallow embedding of [src/strategies/signal_processor.py],
    [src/risk/manager.py] and [src/execution/engine.py].

    Python floats are modelled by exact rationals ([Q]); where pandas hands
    the signal processor a NaN, the value is [NaN] of type [pyfloat].
    Timestamps are seconds, also rationals; every [datetime.utcnow()] of the
    source is an explicit argument of the embedded function.  Exceptions are
    values of type [exn], carried by [result]. *)

From Stdlib Require Import ZArith QArith String List Bool Lia Lqa.
From stdpp Require Import base option list gmap strings pretty.

Local Close Scope Q_scope.
Local Open Scope string_scope.

(** ** Shared vocabulary *)

(** The exceptions the modelled code raises or catches. *)
Inductive exn :=
| ZeroDivisionError
| IndexError
| KeyError (key : string)
| TypeError
| ClientError.

Inductive result (A : Type) :=
| Ok (a : A)
| Raise (e : exn).
Arguments Ok {A} a.
Arguments Raise {A} e.

Global Instance result_ret : MRet result := λ A a, Ok a.

Global Instance result_bind : MBind result := λ A B k r,
  match r with
  | Ok a => k a
  | Raise e => Raise e
  end.

Definition Time := Q.

(** [class Signal(Enum)] of signal_processor.py. *)
Inductive Signal := BUY | SELL | HOLD.

Global Instance Signal_eq_dec : EqDecision Signal.
Proof. solve_decision. Defined.

Definition signal_eqb (a b : Signal) : bool := bool_decide (a = b).

(** The fields of [TradingConfig] (config.py) that the three components read. *)
Record TradingConfig := {
  trading_mode : string;
  trading_pair : string;
  order_type : string;
  max_position_size : Q;
  stop_loss_percentage : Q;
  take_profit_percentage : Q;
  min_order_size : Q;
  cooldown_period : Z;
  rsi_period : Z;
  rsi_oversold : Z;
  rsi_overbought : Z;
  bollinger_period : Z;
  bollinger_std : Q
}.

(** The defaults of [load_config]. *)
Definition default_config : TradingConfig := {|
  trading_mode := "test";
  trading_pair := "BTC-USD";
  order_type := "market";
  max_position_size := 1 # 10;
  stop_loss_percentage := 2;
  take_profit_percentage := 5;
  min_order_size := 10;
  cooldown_period := 300;
  rsi_period := 14;
  rsi_oversold := 30;
  rsi_overbought := 70;
  bollinger_period := 20;
  bollinger_std := 2
|}.

Definition with_mode (mode : string) (cfg : TradingConfig) : TradingConfig := {|
  trading_mode := mode;
  trading_pair := trading_pair cfg;
  order_type := order_type cfg;
  max_position_size := max_position_size cfg;
  stop_loss_percentage := stop_loss_percentage cfg;
  take_profit_percentage := take_profit_percentage cfg;
  min_order_size := min_order_size cfg;
  cooldown_period := cooldown_period cfg;
  rsi_period := rsi_period cfg;
  rsi_oversold := rsi_oversold cfg;
  rsi_overbought := rsi_overbought cfg;
  bollinger_period := bollinger_period cfg;
  bollinger_std := bollinger_std cfg
|}.

Definition paper_config : TradingConfig := with_mode "paper" default_config.

(** Python's comparison operators on finite floats. *)
Definition Qleb (a b : Q) : bool := Qle_bool a b.
Definition Qltb (a b : Q) : bool := negb (Qle_bool b a).
Definition Qgeb (a b : Q) : bool := Qle_bool b a.
Definition Qgtb (a b : Q) : bool := negb (Qle_bool a b).

(** [max(a, b)] of Python: the first argument unless the second is greater. *)
Definition py_max (a b : Q) : Q := if Qgtb b a then b else a.

(** [int(x)]: truncation toward zero. *)
Definition py_int (x : Q) : Z := Z.quot (Qnum x) (Zpos (Qden x)).

(** The logger, as the records a call emits (keyword fields left out). *)
Inductive Level := DEBUG | INFO | WARNING | ERROR.

Record LogRecord := { level : Level; message : string }.

(** ** The Risk Manager (risk/manager.py) *)

Module Risk.

Local Open Scope Q_scope.

Inductive PositionStatus := NONE | OPEN | CLOSING.

Record Position := {
  entry_price : Q;
  size : Q;
  entry_time : Time;
  status : PositionStatus;
  stop_loss : Q;
  take_profit : Q;
  unrealized_pnl : Q;
  realized_pnl : Q
}.

(** The dicts appended to [trade_history], by their ['type']. *)
Inductive Trade :=
| TradeOpen (timestamp : Time) (price size value : Q)
| TradeClose (timestamp : Time) (price size pnl : Q).

Record RiskManager := {
  balance : Q;
  available_balance : Q;
  current_position : option Position;
  trade_history : list Trade;
  last_trade_time : option Time;
  total_pnl : Q;
  win_rate : Q;
  max_drawdown : Q;
  peak_balance : Q
}.

(** [RiskManager.__init__]. *)
Definition init : RiskManager := {|
  balance := 0;
  available_balance := 0;
  current_position := None;
  trade_history := [];
  last_trade_time := None;
  total_pnl := 0;
  win_rate := 0;
  max_drawdown := 0;
  peak_balance := 0
|}.

(** What a state-changing method leaves behind: its return value, the
    manager afterwards and the log records it wrote. *)
Record Outcome (A : Type) := {
  value : A;
  state : RiskManager;
  logged : list LogRecord
}.
Arguments value {A} _.
Arguments state {A} _.
Arguments logged {A} _.

(** The second component of [can_trade]'s result; the formatted numbers of
    the source's f-strings are the constructor arguments. *)
Inductive Reason :=
| TestModeAllowed            (* "Test mode - trading allowed" *)
| CooldownActive (remaining : Z)   (* "Cooldown period active: {n}s remaining" *)
| AlreadyOpen                (* "Already have an open position" *)
| NoPositionToSell           (* "No position to sell" *)
| BelowMinimum (value : Q)   (* "Position size below minimum: ${v:.2f}" *)
| InsufficientBalance (available : Q)  (* "Insufficient balance: ${b:.2f}" *)
| TradeAllowed.              (* "Trade allowed" *)

(** The sizing dict of [calculate_order_details]; [NoDetails] is [{}]. *)
Inductive OrderDetails :=
| BuyDetails (size value stop_loss take_profit risk_amount potential_profit : Q)
| SellDetails (size value entry_price exit_price pnl : Q)
| NoDetails.

Definition set_balance (b : Q) (rm : RiskManager) : Outcome unit := {|
  value := tt;
  state := {|
    balance := b;
    available_balance := b;
    current_position := current_position rm;
    trade_history := trade_history rm;
    last_trade_time := last_trade_time rm;
    total_pnl := total_pnl rm;
    win_rate := win_rate rm;
    max_drawdown := max_drawdown rm;
    peak_balance := b
  |};
  logged := [ {| level := INFO; message := "Balance set" |} ]
|}.

Definition _calculate_position_size (cfg : TradingConfig) (current_price : Q)
    (rm : RiskManager) : result Q :=
  let position_value := available_balance rm * max_position_size cfg in
  if Qeq_bool current_price 0 then Raise ZeroDivisionError
  else Ok (position_value / current_price).

Definition _check_cooldown (cfg : TradingConfig) (now : Time) (rm : RiskManager) : bool :=
  match last_trade_time rm with
  | None => true
  | Some last =>
      let time_since_trade := now - last in
      Qgeb time_since_trade (inject_Z (cooldown_period cfg))
  end.

Definition _get_cooldown_remaining (cfg : TradingConfig) (now : Time)
    (rm : RiskManager) : Z :=
  match last_trade_time rm with
  | None => 0%Z
  | Some last =>
      let time_since_trade := now - last in
      let remaining := py_max 0 (inject_Z (cooldown_period cfg) - time_since_trade) in
      py_int remaining
  end.

Definition mode_trades (cfg : TradingConfig) : bool :=
  String.eqb (trading_mode cfg) "paper" || String.eqb (trading_mode cfg) "live".

(** [can_trade]; [now] and [now'] are the clock readings of
    [_check_cooldown] and of [_get_cooldown_remaining]. *)
Definition can_trade (cfg : TradingConfig) (signal : Signal) (current_price : Q)
    (now now' : Time) (rm : RiskManager) : result (bool * Reason) :=
  if negb (mode_trades cfg) then Ok (true, TestModeAllowed)
  else if negb (_check_cooldown cfg now rm) then
    Ok (false, CooldownActive (_get_cooldown_remaining cfg now' rm))
  else if signal_eqb signal BUY && bool_decide (is_Some (current_position rm)) then
    Ok (false, AlreadyOpen)
  else if signal_eqb signal SELL && negb (bool_decide (is_Some (current_position rm))) then
    Ok (false, NoPositionToSell)
  else
    below ← (if signal_eqb signal BUY then
                (position_size ← _calculate_position_size cfg current_price rm;
                 Ok (if Qltb (position_size * current_price) (min_order_size cfg)
                     then Some (position_size * current_price) else None))
              else Ok None);
     match below with
     | Some v => Ok (false, BelowMinimum v)
     | None =>
         if signal_eqb signal BUY && Qltb (available_balance rm) (min_order_size cfg)
         then Ok (false, InsufficientBalance (available_balance rm))
         else Ok (true, TradeAllowed)
     end.

Definition calculate_order_details (cfg : TradingConfig) (signal : Signal)
    (current_price signal_strength : Q) (rm : RiskManager) : result OrderDetails :=
  match signal, current_position rm with
  | BUY, _ =>
      base_size ← _calculate_position_size cfg current_price rm;
       let adjusted_size := base_size * signal_strength in
       let stop_loss := current_price * (1 - stop_loss_percentage cfg / 100) in
       let take_profit := current_price * (1 + take_profit_percentage cfg / 100) in
       Ok (BuyDetails adjusted_size
                      (adjusted_size * current_price)
                      stop_loss
                      take_profit
                      (adjusted_size * (current_price - stop_loss))
                      (adjusted_size * (take_profit - current_price)))
  | SELL, Some p =>
      Ok (SellDetails (size p)
                      (size p * current_price)
                      (entry_price p)
                      current_price
                      (size p * (current_price - entry_price p)))
  | _, _ => Ok NoDetails
  end.

(** [open_position]; [t_entry] and [t_trade] are its two clock readings. *)
Definition open_position (entry_price size stop_loss take_profit : Q)
    (t_entry t_trade : Time) (rm : RiskManager) : Outcome unit :=
  let position_value := size * entry_price in
  {| value := tt;
     state := {|
       balance := balance rm;
       available_balance := available_balance rm - position_value;
       current_position := Some {|
         entry_price := entry_price;
         size := size;
         entry_time := t_entry;
         status := OPEN;
         stop_loss := stop_loss;
         take_profit := take_profit;
         unrealized_pnl := 0;
         realized_pnl := 0
       |};
       trade_history :=
         trade_history rm ++ [TradeOpen t_trade entry_price size position_value];
       last_trade_time := Some t_trade;
       total_pnl := total_pnl rm;
       win_rate := win_rate rm;
       max_drawdown := max_drawdown rm;
       peak_balance := peak_balance rm
     |};
     logged := [ {| level := INFO; message := "Position opened" |} ]
  |}.

Definition is_winning_close (t : Trade) : bool :=
  match t with
  | TradeClose _ _ _ pnl => Qgtb pnl 0
  | TradeOpen _ _ _ _ => false
  end.

Definition is_losing_close (t : Trade) : bool :=
  match t with
  | TradeClose _ _ _ pnl => Qleb pnl 0
  | TradeOpen _ _ _ _ => false
  end.

Definition _update_metrics (rm : RiskManager) : RiskManager :=
  let winning_trades := List.filter is_winning_close (trade_history rm) in
  let losing_trades := List.filter is_losing_close (trade_history rm) in
  let total_closed := (length winning_trades + length losing_trades)%nat in
  let win_rate' :=
    if (0 <? total_closed)%nat
    then inject_Z (Z.of_nat (length winning_trades)) / inject_Z (Z.of_nat total_closed)
    else win_rate rm in
  let max_drawdown' :=
    if Qgtb (peak_balance rm) 0
    then py_max (max_drawdown rm) ((peak_balance rm - balance rm) / peak_balance rm)
    else max_drawdown rm in
  {| balance := balance rm;
     available_balance := available_balance rm;
     current_position := current_position rm;
     trade_history := trade_history rm;
     last_trade_time := last_trade_time rm;
     total_pnl := total_pnl rm;
     win_rate := win_rate';
     max_drawdown := max_drawdown';
     peak_balance := peak_balance rm |}.

Definition with_realized_pnl (v : Q) (p : Position) : Position := {|
  entry_price := entry_price p;
  size := size p;
  entry_time := entry_time p;
  status := status p;
  stop_loss := stop_loss p;
  take_profit := take_profit p;
  unrealized_pnl := unrealized_pnl p;
  realized_pnl := v
|}.


(** [close_position]; [now] is its clock reading. *)
Definition close_position (exit_price : Q) (now : Time) (rm : RiskManager)
    : Outcome unit :=
  match current_position rm with
  | None =>
      {| value := tt; state := rm;
         logged := [ {| level := ERROR; message := "No position to close" |} ] |}
  | Some p0 =>
      let pnl := size p0 * (exit_price - entry_price p0) in
      let p := with_realized_pnl pnl p0 in
      let total_pnl' := total_pnl rm + pnl in
      let balance' := balance rm + pnl in
      let peak_balance' :=
        if Qgtb balance' (peak_balance rm) then balance' else peak_balance rm in
      {| value := tt;
         state := _update_metrics {|
           balance := balance';
           available_balance := balance';
           current_position := None;
           trade_history :=
             trade_history rm ++ [TradeClose now exit_price (size p) pnl];
           last_trade_time := Some now;
           total_pnl := total_pnl';
           win_rate := win_rate rm;
           max_drawdown := max_drawdown rm;
           peak_balance := peak_balance'
         |};
         logged := [ {| level := INFO; message := "Position closed" |} ]
      |}
  end.

Definition with_unrealized_pnl (u : Q) (p : Position) : Position := {|
  entry_price := entry_price p;
  size := size p;
  entry_time := entry_time p;
  status := status p;
  stop_loss := stop_loss p;
  take_profit := take_profit p;
  unrealized_pnl := u;
  realized_pnl := realized_pnl p
|}.

Definition with_position (p : option Position) (rm : RiskManager) : RiskManager := {|
  balance := balance rm;
  available_balance := available_balance rm;
  current_position := p;
  trade_history := trade_history rm;
  last_trade_time := last_trade_time rm;
  total_pnl := total_pnl rm;
  win_rate := win_rate rm;
  max_drawdown := max_drawdown rm;
  peak_balance := peak_balance rm
|}.

(** The records of the two exits. *)
Definition stop_loss_record : LogRecord :=
  {| level := WARNING; message := "Stop loss triggered" |}.

Definition take_profit_record : LogRecord :=
  {| level := INFO; message := "Take profit triggered" |}.

Definition update_position (current_price : Q) (rm : RiskManager)
    : Outcome (option Signal) :=
  match current_position rm with
  | None => {| value := None; state := rm; logged := [] |}
  | Some p =>
      let p' := with_unrealized_pnl (size p * (current_price - entry_price p)) p in
      let rm' := with_position (Some p') rm in
      if Qleb current_price (stop_loss p') then
        {| value := Some SELL; state := rm';
           logged := [stop_loss_record] |}
      else if Qgeb current_price (take_profit p') then
        {| value := Some SELL; state := rm';
           logged := [take_profit_record] |}
      else
        {| value := None; state := rm'; logged := [] |}
  end.

(** *** States and runs used in the statements below *)

(** A manager funded with 10000, and the same holding the position of
    Scenario D. *)
Definition funded : RiskManager := state (set_balance 10000 init).

Definition holding : RiskManager :=
  state (open_position 50000 (2 # 1000) 49000 52500 0 0 funded).

(** The ['size'] and ['value'] of a sizing record. *)
Definition sized (d : OrderDetails) : option Q :=
  match d with
  | BuyDetails s _ _ _ _ _ => Some s
  | SellDetails s _ _ _ _ => Some s
  | NoDetails => None
  end.

Definition valued (d : OrderDetails) : option Q :=
  match d with
  | BuyDetails _ v _ _ _ _ => Some v
  | SellDetails _ v _ _ _ => Some v
  | NoDetails => None
  end.

(** One open/close cycle: the arguments of [open_position], the exit price
    and the three clock readings. *)
Record Cycle := {
  c_entry : Q;
  c_size : Q;
  c_stop : Q;
  c_take : Q;
  c_exit : Q;
  c_t_entry : Time;
  c_t_open : Time;
  c_t_close : Time
}.

Definition opened (c : Cycle) (rm : RiskManager) : RiskManager :=
  state (open_position (c_entry c) (c_size c) (c_stop c) (c_take c)
           (c_t_entry c) (c_t_open c) rm).

Definition round_trip (c : Cycle) (rm : RiskManager) : RiskManager :=
  state (close_position (c_exit c) (c_t_close c) (opened c rm)).

Definition run_cycles (cs : list Cycle) (rm : RiskManager) : RiskManager :=
  foldl (λ rm c, round_trip c rm) rm cs.


Definition scenario_d : Cycle := {|
  c_entry := 50000; c_size := 2 # 1000; c_stop := 49000; c_take := 52500;
  c_exit := 49000; c_t_entry := 0; c_t_open := 0; c_t_close := 1
|}.

(** *** Metrics and sequences of calls *)

Definition is_close (t : Trade) : bool :=
  match t with
  | TradeClose _ _ _ _ => true
  | TradeOpen _ _ _ _ => false
  end.

(** The dict of [get_metrics]. *)
Record Metrics := {
  m_balance : Q;
  m_available_balance : Q;
  m_total_pnl : Q;
  m_win_rate : Q;
  m_max_drawdown : Q;
  m_total_trades : nat;
  m_open_position : bool;
  m_position_pnl : Q
}.

Definition get_metrics (rm : RiskManager) : Metrics := {|
  m_balance := balance rm;
  m_available_balance := available_balance rm;
  m_total_pnl := total_pnl rm;
  m_win_rate := win_rate rm;
  m_max_drawdown := max_drawdown rm;
  m_total_trades := length (List.filter is_close (trade_history rm));
  m_open_position := bool_decide (is_Some (current_position rm));
  m_position_pnl :=
    match current_position rm with
    | Some p => unrealized_pnl p
    | None => 0
    end
|}.

(** One state-changing call on the manager, and a sequence of them. *)
Inductive Call :=
| CallSetBalance (balance : Q)
| CallOpen (entry_price size stop_loss take_profit : Q) (t_entry t_trade : Time)
| CallClose (exit_price : Q) (now : Time)
| CallUpdate (current_price : Q).

Definition call (c : Call) (rm : RiskManager) : RiskManager :=
  match c with
  | CallSetBalance b => state (set_balance b rm)
  | CallOpen entry size sl tp t1 t2 => state (open_position entry size sl tp t1 t2 rm)
  | CallClose exit now => state (close_position exit now rm)
  | CallUpdate price => state (update_position price rm)
  end.

Definition calls (cs : list Call) (rm : RiskManager) : RiskManager :=
  foldl (λ rm c, call c rm) rm cs.

Definition is_set_balance (c : Call) : bool :=
  match c with CallSetBalance _ => true | _ => false end.

(** The ['pnl'] of the sizing record of a SELL. *)
Definition sell_pnl (d : OrderDetails) : option Q :=
  match d with
  | SellDetails _ _ _ _ pnl => Some pnl
  | _ => None
  end.

End Risk.

(** ** The Signal Processor (strategies/signal_processor.py) *)

(** A float as pandas and numpy hand it over: finite, or NaN. *)
Inductive pyfloat := Fin (q : Q) | NaN.

Definition flt (a b : pyfloat) : bool :=
  match a, b with Fin x, Fin y => Qltb x y | _, _ => false end.
Definition fle (a b : pyfloat) : bool :=
  match a, b with Fin x, Fin y => Qleb x y | _, _ => false end.
Definition fgt (a b : pyfloat) : bool :=
  match a, b with Fin x, Fin y => Qgtb x y | _, _ => false end.
Definition fge (a b : pyfloat) : bool :=
  match a, b with Fin x, Fin y => Qgeb x y | _, _ => false end.
Definition fne (a b : pyfloat) : bool :=
  match a, b with Fin x, Fin y => negb (Qeq_bool x y) | _, _ => true end.
Definition fsub (a b : pyfloat) : pyfloat :=
  match a, b with Fin x, Fin y => Fin (x - y)%Q | _, _ => NaN end.
(** Used under a guard that makes a finite divisor non-zero. *)
Definition fdiv (a b : pyfloat) : pyfloat :=
  match a, b with Fin x, Fin y => Fin (x / y)%Q | _, _ => NaN end.

Module Strategy.

Record Candle := {
  timestamp : Time;
  open : Q;
  high : Q;
  low : Q;
  close : Q;
  volume : Q
}.

(** One dict of [signal_history]. *)
Record HistoryEntry := {
  entry_timestamp : Time;
  signal : Signal;
  indicators : gmap string pyfloat
}.

Record SignalProcessor := {
  last_signal : option Signal;
  signal_history : list HistoryEntry
}.

(** [SignalProcessor.__init__]. *)
Definition init : SignalProcessor :=
  {| last_signal := None; signal_history := [] |}.

(** [d[key]] on a dict. *)
Definition getitem (d : gmap string pyfloat) (key : string) : result pyfloat :=
  match d !! key with
  | Some v => Ok v
  | None => Raise (KeyError key)
  end.

(** [series.iloc[-1]]. *)
Definition iloc_last (series : list Q) : result pyfloat :=
  match last series with
  | Some v => Ok (Fin v)
  | None => Raise IndexError
  end.

Definition _should_filter_signal (sig : Signal) (sp : SignalProcessor) : bool :=
  if bool_decide (signal_history sp = []) || signal_eqb sig HOLD then false
  else
    let window := drop (length (signal_history sp) - 5) (signal_history sp) in
    let recent_signals :=
      List.filter (λ h, negb (signal_eqb (signal h) HOLD)) window in
    match last recent_signals with
    | Some h =>
        let last_meaningful_signal := signal h in
        (signal_eqb sig BUY && signal_eqb last_meaningful_signal SELL)
        || (signal_eqb sig SELL && signal_eqb last_meaningful_signal BUY)
    | None => false
    end.

Definition fz (z : Z) : pyfloat := Fin (inject_Z z).

Definition _generate_signal (cfg : TradingConfig) (ind : gmap string pyfloat)
    (sp : SignalProcessor) : result Signal :=
  rsi ← getitem ind "rsi";
  close ← getitem ind "close";
  bb_upper ← getitem ind "bb_upper";
  bb_lower ← getitem ind "bb_lower";
  bb_position ← getitem ind "bb_position";
  volume_ratio ← getitem ind "volume_ratio";
  let rsi_buy := flt rsi (fz (rsi_oversold cfg)) in
  let rsi_sell := fgt rsi (fz (rsi_overbought cfg)) in
  let bb_buy := fle close bb_lower in
  let bb_sell := fge close bb_upper in
  let sig :=
    if rsi_buy && bb_buy then BUY
    else if rsi_buy && flt bb_position (Fin (3 # 10)) then BUY
    else if bb_buy && flt rsi (fz 40) then BUY
    else if rsi_sell && bb_sell then SELL
    else if rsi_sell && fgt bb_position (Fin (7 # 10)) then SELL
    else if bb_sell && fgt rsi (fz 60) then SELL
    else HOLD in
  let sig :=
    if negb (signal_eqb sig HOLD) && flt volume_ratio (Fin (1 # 2)) then HOLD
    else sig in
  let sig := if _should_filter_signal sig sp then HOLD else sig in
  Ok sig.

(** The number of candles [process] asks for. *)
Definition required (cfg : TradingConfig) : Z :=
  Z.max (rsi_period cfg) (bollinger_period cfg).

Section Indicators.

(** The last value of the series that the [ta] indicators compute from the
    closes, and of pandas' rolling mean of the volumes; these libraries are
    not part of the repository. *)
Variable ta_rsi : list Q → Z → result pyfloat.
Variable ta_bollinger_hband : list Q → Z → Q → result pyfloat.
Variable ta_bollinger_mavg : list Q → Z → Q → result pyfloat.
Variable ta_bollinger_lband : list Q → Z → Q → result pyfloat.
Variable pd_rolling_mean : list Q → Z → result pyfloat.

Definition _calculate_indicators (cfg : TradingConfig) (candles : list Candle)
    : result (gmap string pyfloat) :=
  let close_prices := close <$> candles in
  rsi ← ta_rsi close_prices (rsi_period cfg);
  bb_upper ← ta_bollinger_hband close_prices (bollinger_period cfg) (bollinger_std cfg);
  bb_middle ← ta_bollinger_mavg close_prices (bollinger_period cfg) (bollinger_std cfg);
  bb_lower ← ta_bollinger_lband close_prices (bollinger_period cfg) (bollinger_std cfg);
  current_close ← iloc_last close_prices;
  current_volume ← iloc_last (volume <$> candles);
  let bb_position :=
    if fne bb_upper bb_lower
    then fdiv (fsub current_close bb_lower) (fsub bb_upper bb_lower)
    else Fin (1 # 2) in
  avg_volume ← pd_rolling_mean (volume <$> candles) 20;
  let volume_ratio :=
    if fgt avg_volume (Fin 0) then fdiv current_volume avg_volume else Fin 1 in
  Ok (<["rsi" := rsi]>
      (<["bb_upper" := bb_upper]>
      (<["bb_middle" := bb_middle]>
      (<["bb_lower" := bb_lower]>
      (<["bb_position" := bb_position]>
      (<["close" := current_close]>
      (<["volume" := current_volume]>
      (<["volume_ratio" := volume_ratio]>
      (<["avg_volume" := avg_volume]> ∅))))))))).

(** [candles.index[-1]]. *)
Definition index_last (candles : list Candle) : result Time :=
  match last candles with
  | Some c => Ok (timestamp c)
  | None => Raise IndexError
  end.

(** [process]: the returned pair and the processor afterwards.  Every
    exception of the body is raised before the first assignment to [self]. *)
Definition process (cfg : TradingConfig) (candles : list Candle)
    (sp : SignalProcessor)
    : result ((Signal * gmap string pyfloat) * SignalProcessor) :=
  if (Z.of_nat (length candles) <? required cfg)%Z
  then Ok ((HOLD, ∅), sp)
  else
    ind ← _calculate_indicators cfg candles;
    sig ← _generate_signal cfg ind sp;
    ts ← index_last candles;
    Ok ((sig, ind),
        {| last_signal := Some sig;
           signal_history :=
             signal_history sp ++
             [ {| entry_timestamp := ts; signal := sig; indicators := ind |} ] |}).

End Indicators.

(** *** Inputs used in the statements below *)

(** The snapshot of Scenarios A and B: RSI 25, close 49000 on the lower
    band; the volume ratio and the two entries the scenarios leave open are
    arguments. *)
Definition scenario_snapshot (volume_ratio bb_upper bb_position : pyfloat)
    : gmap string pyfloat :=
  <["rsi" := Fin 25]>
  (<["close" := Fin 49000]>
  (<["bb_upper" := bb_upper]>
  (<["bb_lower" := Fin 49000]>
  (<["bb_position" := bb_position]>
  (<["volume_ratio" := volume_ratio]> ∅))))).

(** [n] one-minute candles at a flat price. *)
Definition flat_candles (n : nat) : list Candle :=
  (λ i : nat, {| timestamp := inject_Z (60 * Z.of_nat i); open := 50000;
                 high := 50100; low := 49900; close := 50000;
                 volume := 1000 |}) <$> seq 0 n.

(** Indicator values for a run on flat candles: RSI 50, bands 49000 / 50000
    / 51000, average volume 1000. *)
Definition flat_rsi (closes : list Q) (window : Z) : result pyfloat := Ok (Fin 50).
Definition flat_hband (closes : list Q) (window : Z) (dev : Q) : result pyfloat :=
  Ok (Fin 51000).
Definition flat_mavg (closes : list Q) (window : Z) (dev : Q) : result pyfloat :=
  Ok (Fin 50000).
Definition flat_lband (closes : list Q) (window : Z) (dev : Q) : result pyfloat :=
  Ok (Fin 49000).
Definition flat_mean (volumes : list Q) (window : Z) : result pyfloat :=
  Ok (Fin 1000).

(** The snapshot computed from twenty flat candles with these values. *)
Definition scenario_flat : gmap string pyfloat :=
  <["rsi" := Fin 50]>
  (<["bb_upper" := Fin 51000]>
  (<["bb_middle" := Fin 50000]>
  (<["bb_lower" := Fin 49000]>
  (<["bb_position" := Fin ((50000 - 49000) / (51000 - 49000))%Q]>
  (<["close" := Fin 50000]>
  (<["volume" := Fin 1000]>
  (<["volume_ratio" := Fin (1000 / 1000)%Q]>
  (<["avg_volume" := Fin 1000]> ∅)))))))).

(** *** Signal strength *)

(** A numpy float produced by a division: a zero divisor gives nan or an
    infinity, where a Python float would raise. *)
Inductive npfloat := NpFin (q : Q) | NpNaN | NpInf (positive : bool).

Definition np_div (x y : Q) : npfloat :=
  if Qeq_bool y 0 then
    if Qeq_bool x 0 then NpNaN else NpInf (Qltb 0 x)
  else NpFin (x / y)%Q.

(** [(a + b) / 2] for a finite [b]. *)
Definition np_mean (a : npfloat) (b : Q) : npfloat :=
  match a with
  | NpFin x => NpFin ((x + b) / 2)%Q
  | NpNaN => NpNaN
  | NpInf s => NpInf s
  end.

(** [min(1.0, x)]: the first argument unless the second is less. *)
Definition min_one (x : npfloat) : npfloat :=
  match x with
  | NpFin q => if Qltb q 1 then NpFin q else NpFin 1
  | NpNaN => NpFin 1
  | NpInf true => NpFin 1
  | NpInf false => NpInf false
  end.

(** [get_signal_strength] on a snapshot as [process] returns it, whose
    values are numpy floats. *)
Definition get_signal_strength (cfg : TradingConfig) (ind : gmap string pyfloat)
    : result npfloat :=
  rsi ← getitem ind "rsi";
  bb_position ← getitem ind "bb_position";
  let oversold := inject_Z (rsi_oversold cfg) in
  let overbought := inject_Z (rsi_overbought cfg) in
  let rsi_strength :=
    match rsi with
    | Fin r =>
        if Qleb r oversold then np_div (oversold - r) oversold
        else if Qgeb r overbought then np_div (r - overbought) (100 - overbought)
        else NpFin 0
    | NaN => NpFin 0
    end in
  let bb_strength :=
    match bb_position with
    | Fin b =>
        if Qleb b (1 # 10) then ((1 # 10) - b) / (1 # 10)
        else if Qgeb b (9 # 10) then (b - (9 # 10)) / (1 # 10)
        else 0
    | NaN => 0
    end%Q in
  Ok (min_one (np_mean rsi_strength bb_strength)).

(** BUY against SELL. *)
Definition opposite (a b : Signal) : bool :=
  match a, b with
  | BUY, SELL | SELL, BUY => true
  | _, _ => false
  end.

(** No entry is the opposite of the entry before it. *)
Fixpoint no_reversal (signals : list Signal) : bool :=
  match signals with
  | a :: (b :: _) as rest => negb (opposite a b) && no_reversal rest
  | _ => true
  end.

(** The processor after a run of calls of a [process]; a call that raises
    leaves it as it was. *)
Definition feed
    (proc : list Candle → SignalProcessor →
            result ((Signal * gmap string pyfloat) * SignalProcessor))
    (inputs : list (list Candle)) (sp : SignalProcessor) : SignalProcessor :=
  foldl (λ sp candles,
           match proc candles sp with
           | Ok (_, sp') => sp'
           | Raise _ => sp
           end) sp inputs.

(** The entries of the last five records that are not HOLD. *)
Definition recent_signals (sp : SignalProcessor) : list HistoryEntry :=
  List.filter (λ h, negb (signal_eqb (signal h) HOLD))
    (drop (length (signal_history sp) - 5) (signal_history sp)).

Definition hold_entry (ts : Time) : HistoryEntry :=
  {| entry_timestamp := ts; signal := HOLD; indicators := ∅ |}.

End Strategy.

(** ** The Execution Engine (execution/engine.py) *)

Module Engine.

Inductive OrderStatus := PENDING | FILLED | CANCELLED | FAILED.

Global Instance OrderStatus_eq_dec : EqDecision OrderStatus.
Proof. solve_decision. Defined.

Record Order := {
  order_id : string;
  side : string;
  size : Q;
  price : option Q;
  status : OrderStatus;
  created_at : Time;
  filled_at : option Time;
  filled_price : option Q;
  filled_size : option Q;
  error_message : option string
}.

(** *** The order gateway ([self.client]) *)

Inductive OrderConfiguration :=
| market_market_ioc_quote (quote_size : Q)
| market_market_ioc_base (base_size : Q)
| limit_limit_gtc (base_size limit_price : Q).

Record OrderRequest := {
  client_order_id : string;
  product_id : string;
  request_side : string;
  order_configuration : OrderConfiguration
}.

(** The calls made on the client, in the order they are made. *)
Inductive ClientCall :=
| CreateOrder (request : OrderRequest)
| GetOrder (order_id : string)
| CancelOrders (order_ids : list string).

(** [response.order] of [get_order].  The venue reports the two fill fields
    as numeric strings; they are held here as the floats that [float(...)]
    makes of them, so that a reply with a fill field that is not a number has
    no counterpart. *)
Record ApiOrder := {
  api_status : string;
  average_filled_price : Q;
  api_filled_size : Q
}.

Inductive GetOrderOutcome :=
| GetOrderRaises                        (* the call raised *)
| GetOrderNothing                       (* falsy, or without an [order] attribute *)
| GetOrderResponse (api_order : ApiOrder).

(** One turn of the polling loop: what [get_order] did, and the clock at
    which a fill is stamped. *)
Record Poll := { reply : GetOrderOutcome; polled_at : Time }.

Inductive CreateOutcome :=
| CreateRaises                          (* the call raised *)
| CreateNothing                         (* falsy, or without an [order_id] attribute *)
| CreateResponse (order_id : string).

(** *** State *)

(** The engine with the [Order] objects it has created: [heap] holds them,
    and [pending_orders], [order_history] and the return values refer to them
    by index, as the source shares one object between the three. *)
Record ExecutionEngine := {
  risk_manager : Risk.RiskManager;
  heap : list Order;
  pending_orders : gmap string nat;
  order_history : list (option nat);
  total_orders : nat;
  successful_orders : nat;
  failed_orders : nat;
  client_calls : list ClientCall
}.

(** [ExecutionEngine.__init__]. *)
Definition init (rm : Risk.RiskManager) : ExecutionEngine := {|
  risk_manager := rm;
  heap := [];
  pending_orders := ∅;
  order_history := [];
  total_orders := 0;
  successful_orders := 0;
  failed_orders := 0;
  client_calls := []
|}.

Definition set_risk_manager (rm : Risk.RiskManager) (e : ExecutionEngine) :=
  {| risk_manager := rm; heap := heap e; pending_orders := pending_orders e;
     order_history := order_history e; total_orders := total_orders e;
     successful_orders := successful_orders e; failed_orders := failed_orders e;
     client_calls := client_calls e |}.

Definition set_heap (h : list Order) (e : ExecutionEngine) :=
  {| risk_manager := risk_manager e; heap := h; pending_orders := pending_orders e;
     order_history := order_history e; total_orders := total_orders e;
     successful_orders := successful_orders e; failed_orders := failed_orders e;
     client_calls := client_calls e |}.

Definition set_pending_orders (p : gmap string nat) (e : ExecutionEngine) :=
  {| risk_manager := risk_manager e; heap := heap e; pending_orders := p;
     order_history := order_history e; total_orders := total_orders e;
     successful_orders := successful_orders e; failed_orders := failed_orders e;
     client_calls := client_calls e |}.

Definition set_order_history (h : list (option nat)) (e : ExecutionEngine) :=
  {| risk_manager := risk_manager e; heap := heap e; pending_orders := pending_orders e;
     order_history := h; total_orders := total_orders e;
     successful_orders := successful_orders e; failed_orders := failed_orders e;
     client_calls := client_calls e |}.

Definition set_counters (total successful failed : nat) (e : ExecutionEngine) :=
  {| risk_manager := risk_manager e; heap := heap e; pending_orders := pending_orders e;
     order_history := order_history e; total_orders := total;
     successful_orders := successful; failed_orders := failed;
     client_calls := client_calls e |}.

Definition set_client_calls (c : list ClientCall) (e : ExecutionEngine) :=
  {| risk_manager := risk_manager e; heap := heap e; pending_orders := pending_orders e;
     order_history := order_history e; total_orders := total_orders e;
     successful_orders := successful_orders e; failed_orders := failed_orders e;
     client_calls := c |}.

(** *** Statements: state passing with exceptions.  A raise keeps the state
    reached so far, as an exception in Python keeps the assignments made
    before it. *)

Definition M (A : Type) : Type := ExecutionEngine → result A * ExecutionEngine.

Definition ret {A} (a : A) : M A := λ e, (Ok a, e).

Definition bind {A B} (m : M A) (k : A → M B) : M B := λ e,
  match m e with
  | (Ok a, e') => k a e'
  | (Raise x, e') => (Raise x, e')
  end.

Definition raise {A} (x : exn) : M A := λ e, (Raise x, e).

(** [try: body except Exception: handler]. *)
Definition try_except {A} (body : M A) (handler : exn → M A) : M A := λ e,
  match body e with
  | (Ok a, e') => (Ok a, e')
  | (Raise x, e') => handler x e'
  end.

Definition get : M ExecutionEngine := λ e, (Ok e, e).

Definition modify (f : ExecutionEngine → ExecutionEngine) : M unit :=
  λ e, (Ok tt, f e).

Definition lift {A} (r : result A) : M A := λ e, (r, e).

Declare Scope engine_scope.
Delimit Scope engine_scope with engine.
Notation "'do' x <- m ; k" := (bind m (λ x, k))
  (at level 10, x name, m at level 100, k at level 200) : engine_scope.
Notation "'do' ' p <- m ; k" := (bind m (λ p, k))
  (at level 10, p strict pattern, m at level 100, k at level 200) : engine_scope.
Notation "m ;; k" := (bind m (λ _, k))
  (at level 100, k at level 200, right associativity) : engine_scope.
Local Open Scope engine_scope.

(** [Order(...)]: a new object. *)
Definition new_order (o : Order) : M nat := λ e,
  (Ok (length (heap e)), set_heap (heap e ++ [o]) e).

(** An assignment to fields of the order object [r]. *)
Definition update_order (r : nat) (f : Order → Order) : M unit :=
  modify (λ e, set_heap (alter f r (heap e)) e).

Definition pending_get (order_id : string) : M (option nat) := λ e,
  (Ok (pending_orders e !! order_id), e).

Definition pending_set (order_id : string) (r : nat) : M unit :=
  modify (λ e, set_pending_orders (<[order_id := r]> (pending_orders e)) e).

(** [del self.pending_orders[order_id]]. *)
Definition pending_del (order_id : string) : M unit := λ e,
  match pending_orders e !! order_id with
  | Some _ => (Ok tt, set_pending_orders (delete order_id (pending_orders e)) e)
  | None => (Raise (KeyError order_id), e)
  end.

Definition client_call (c : ClientCall) : M unit :=
  modify (λ e, set_client_calls (client_calls e ++ [c]) e).

Definition history_append (r : option nat) : M unit :=
  modify (λ e, set_order_history (order_history e ++ [r]) e).

Definition count_success : M unit :=
  modify (λ e, set_counters (total_orders e) (S (successful_orders e)) (failed_orders e) e).

Definition count_failure : M unit :=
  modify (λ e, set_counters (total_orders e) (successful_orders e) (S (failed_orders e)) e).

Definition count_total : M unit :=
  modify (λ e, set_counters (S (total_orders e)) (successful_orders e) (failed_orders e) e).

Definition risk_open_position (entry_price size stop_loss take_profit : Q)
    (t_entry t_trade : Time) : M unit :=
  modify (λ e, set_risk_manager
    (Risk.state (Risk.open_position entry_price size stop_loss take_profit
                   t_entry t_trade (risk_manager e))) e).

Definition risk_close_position (exit_price : Q) (now : Time) : M unit :=
  modify (λ e, set_risk_manager
    (Risk.state (Risk.close_position exit_price now (risk_manager e))) e).

(** [order_details[key]] for the keys the engine reads. *)
Definition details_side (d : Risk.OrderDetails) : result string :=
  match d with
  | Risk.BuyDetails _ _ _ _ _ _ => Ok "buy"
  | Risk.SellDetails _ _ _ _ _ => Ok "sell"
  | Risk.NoDetails => Raise (KeyError "side")
  end.

Definition details_size (d : Risk.OrderDetails) : result Q :=
  match d with
  | Risk.BuyDetails s _ _ _ _ _ => Ok s
  | Risk.SellDetails s _ _ _ _ => Ok s
  | Risk.NoDetails => Raise (KeyError "size")
  end.

Definition details_value (d : Risk.OrderDetails) : result Q :=
  match d with
  | Risk.BuyDetails _ v _ _ _ _ => Ok v
  | Risk.SellDetails _ v _ _ _ => Ok v
  | Risk.NoDetails => Raise (KeyError "value")
  end.

Definition details_stop_loss (d : Risk.OrderDetails) : result Q :=
  match d with
  | Risk.BuyDetails _ _ sl _ _ _ => Ok sl
  | _ => Raise (KeyError "stop_loss")
  end.

Definition details_take_profit (d : Risk.OrderDetails) : result Q :=
  match d with
  | Risk.BuyDetails _ _ _ tp _ _ => Ok tp
  | _ => Raise (KeyError "take_profit")
  end.

(** The clock readings and gateway behaviour that one [execute_signal] meets. *)
Record Env := {
  t_cooldown : Time;       (* [_check_cooldown] *)
  t_remaining : Time;      (* [_get_cooldown_remaining] *)
  t_created : Time;        (* [created_at] *)
  t_filled : Time;         (* [filled_at] of a test or paper order *)
  t_entry : Time;          (* [entry_time] of the position *)
  t_trade : Time;          (* [last_trade_time] *)
  create_order : CreateOutcome;
  polls : list Poll;       (* the loop turns that start before the timeout *)
  cancel_raises : bool     (* whether [cancel_orders] raises *)
}.

(** *** Execution paths *)

Definition _execute_test_order (signal : Signal) (order_details : Risk.OrderDetails)
    (current_price : Q) (env : Env) : M nat :=
  do e <- get;
  do side <- lift (details_side order_details);
  do size <- lift (details_size order_details);
  do order <- new_order {|
    order_id := "TEST-" +:+ pretty (total_orders e);
    side := side;
    size := size;
    price := Some current_price;
    status := FILLED;
    created_at := t_created env;
    filled_at := Some (t_filled env);
    filled_price := Some current_price;
    filled_size := Some size;
    error_message := None |};
  (if signal_eqb signal BUY then
     do size <- lift (details_size order_details);
     do stop_loss <- lift (details_stop_loss order_details);
     do take_profit <- lift (details_take_profit order_details);
     risk_open_position current_price size stop_loss take_profit
       (t_entry env) (t_trade env)
   else
     risk_close_position current_price (t_trade env));;
  count_total;;
  count_success;;
  history_append (Some order);;
  ret order.

Definition fill (at_time : Time) (fill_price fill_size : Q) (o : Order) : Order := {|
  order_id := order_id o;
  side := side o;
  size := size o;
  price := price o;
  status := FILLED;
  created_at := created_at o;
  filled_at := Some at_time;
  filled_price := Some fill_price;
  filled_size := Some fill_size;
  error_message := error_message o
|}.

Definition cancel (error : string) (o : Order) : Order := {|
  order_id := order_id o;
  side := side o;
  size := size o;
  price := price o;
  status := CANCELLED;
  created_at := created_at o;
  filled_at := filled_at o;
  filled_price := filled_price o;
  filled_size := filled_size o;
  error_message := Some error
|}.

Definition _execute_paper_order (signal : Signal) (order_details : Risk.OrderDetails)
    (current_price : Q) (env : Env) : M nat :=
  do e <- get;
  do side <- lift (details_side order_details);
  do size <- lift (details_size order_details);
  let id := "PAPER-" +:+ pretty (total_orders e) in
  do order <- new_order {|
    order_id := id;
    side := side;
    size := size;
    price := Some current_price;
    status := PENDING;
    created_at := t_created env;
    filled_at := None;
    filled_price := None;
    filled_size := None;
    error_message := None |};
  pending_set id order;;
  let fill_price :=
    (current_price * (1 + (if signal_eqb signal BUY then 1 # 1000 else - (1 # 1000))))%Q in
  do size <- lift (details_size order_details);
  update_order order (fill (t_filled env) fill_price size);;
  (if signal_eqb signal BUY then
     do size <- lift (details_size order_details);
     do stop_loss <- lift (details_stop_loss order_details);
     do take_profit <- lift (details_take_profit order_details);
     risk_open_position fill_price size stop_loss take_profit
       (t_entry env) (t_trade env)
   else
     risk_close_position fill_price (t_trade env));;
  pending_del id;;
  count_total;;
  count_success;;
  history_append (Some order);;
  ret order.

(** The body of the [while] loop of [_wait_for_fill], once per element of
    [polls]; [true] when the loop was left by a [return order]. *)
Fixpoint poll_loop (order_id : string) (order : nat) (polls : list Poll) : M bool :=
  match polls with
  | [] => ret false
  | p :: polls' =>
      do returned <- try_except
        (client_call (GetOrder order_id);;
         match reply p with
         | GetOrderRaises => raise ClientError
         | GetOrderNothing => ret false
         | GetOrderResponse api_order =>
             if String.eqb (api_status api_order) "FILLED" then
               update_order order
                 (fill (polled_at p) (average_filled_price api_order)
                       (api_filled_size api_order));;
               pending_del order_id;;
               ret true
             else if String.eqb (api_status api_order) "CANCELLED"
                     || String.eqb (api_status api_order) "EXPIRED" then
               update_order order (cancel ("Order " +:+ api_status api_order));;
               pending_del order_id;;
               ret true
             else ret false
         end)
        (λ _, ret false);
      if returned then ret true
      else poll_loop order_id order polls'
  end.

Definition _wait_for_fill (order_id : string) (polls : list Poll)
    (cancel_raises : bool) : M (option nat) :=
  do order <- pending_get order_id;
  match order with
  | None => ret None
  | Some r =>
      do returned <- poll_loop order_id r polls;
      if returned then ret (Some r)
      else
        try_except
          (client_call (CancelOrders [order_id]);;
           (if cancel_raises then raise ClientError else ret tt);;
           update_order r (cancel "Order timeout"))
          (λ _, ret tt);;
        pending_del order_id;;
        ret (Some r)
  end.

Definition order_config (cfg : TradingConfig) (signal : Signal)
    (order_details : Risk.OrderDetails) (current_price : Q) (total_orders : nat)
    : result OrderRequest :=
  if String.eqb (order_type cfg) "market" then
    if signal_eqb signal BUY then
      value ← details_value order_details;
      Ok {| client_order_id := "BOT-" +:+ pretty total_orders;
            product_id := trading_pair cfg;
            request_side := "BUY";
            order_configuration := market_market_ioc_quote value |}
    else
      size ← details_size order_details;
      Ok {| client_order_id := "BOT-" +:+ pretty total_orders;
            product_id := trading_pair cfg;
            request_side := "SELL";
            order_configuration := market_market_ioc_base size |}
  else
    let limit_price :=
      (current_price * (if signal_eqb signal BUY then 999 # 1000 else 1001 # 1000))%Q in
    size ← details_size order_details;
    Ok {| client_order_id := "BOT-" +:+ pretty total_orders;
          product_id := trading_pair cfg;
          request_side := if signal_eqb signal BUY then "BUY" else "SELL";
          order_configuration := limit_limit_gtc size limit_price |}.

Definition status_of (r : nat) (e : ExecutionEngine) : option OrderStatus :=
  status <$> heap e !! r.

(** In the live path the position is opened or closed with the fill fields
    of the order; a FILLED order always carries both (lemma
    [filled_orders_carry_fill] below), and arithmetic on a missing one would
    raise [TypeError] inside the risk manager call. *)
Definition _execute_live_order (cfg : TradingConfig) (signal : Signal)
    (order_details : Risk.OrderDetails) (current_price : Q) (env : Env)
    : M (option nat) :=
  try_except
    (do e <- get;
     do request <- lift (order_config cfg signal order_details current_price
                           (total_orders e));
     client_call (CreateOrder request);;
     match create_order env with
     | CreateRaises => raise ClientError
     | CreateNothing => ret None
     | CreateResponse id =>
         do side <- lift (details_side order_details);
         do size <- lift (details_size order_details);
         do order <- new_order {|
           order_id := id;
           side := side;
           size := size;
           price := Some current_price;
           status := PENDING;
           created_at := t_created env;
           filled_at := None;
           filled_price := None;
           filled_size := None;
           error_message := None |};
         pending_set id order;;
         do filled_order <- _wait_for_fill id (polls env) (cancel_raises env);
         do e <- get;
         (match filled_order with
          | Some r =>
              if bool_decide (status_of r e = Some FILLED) then
                (if signal_eqb signal BUY then
                   match heap e !! r ≫= filled_price, heap e !! r ≫= filled_size with
                   | Some fp, Some fs =>
                       do stop_loss <- lift (details_stop_loss order_details);
                       do take_profit <- lift (details_take_profit order_details);
                       risk_open_position fp fs stop_loss take_profit
                         (t_entry env) (t_trade env)
                   | _, _ => raise TypeError
                   end
                 else
                   match heap e !! r ≫= filled_price with
                   | Some fp => risk_close_position fp (t_trade env)
                   | None => raise TypeError
                   end);;
                count_success
              else count_failure
          | None => count_failure
          end);;
         count_total;;
         history_append filled_order;;
         ret filled_order
     end)
    (λ _, count_failure;; ret None).

Definition is_empty (d : Risk.OrderDetails) : bool :=
  match d with Risk.NoDetails => true | _ => false end.

Definition execute_signal (cfg : TradingConfig) (signal : Signal)
    (current_price signal_strength : Q) (env : Env) : M (option nat) :=
  do e <- get;
  do '(can_trade, reason) <-
    lift (Risk.can_trade cfg signal current_price (t_cooldown env) (t_remaining env)
            (risk_manager e));
  if negb can_trade then ret None
  else
    do order_details <-
      lift (Risk.calculate_order_details cfg signal current_price signal_strength
              (risk_manager e));
    if is_empty order_details then ret None
    else if String.eqb (trading_mode cfg) "test" then
      do r <- _execute_test_order signal order_details current_price env;
      ret (Some r)
    else if String.eqb (trading_mode cfg) "paper" then
      do r <- _execute_paper_order signal order_details current_price env;
      ret (Some r)
    else _execute_live_order cfg signal order_details current_price env.

(** The gateway as [check_pending_orders] meets it: for each order id, the
    loop turns of its one-second wait and whether its cancel raises. *)
Definition Script := string → list Poll * bool.

Fixpoint wait_each (script : Script) (order_ids : list string) : M unit :=
  match order_ids with
  | [] => ret tt
  | order_id :: rest =>
      _wait_for_fill order_id (script order_id).1 (script order_id).2;;
      wait_each script rest
  end.

(** The keys are visited in the order [map_to_list] gives them; a wait
    touches the order of its own key only, and the script is indexed by key. *)
Definition check_pending_orders (script : Script) : M unit :=
  do e <- get;
  wait_each script (map_to_list (pending_orders e)).*1.

(** One call on the engine. *)
Inductive Operation :=
| ExecuteSignal (cfg : TradingConfig) (signal : Signal)
    (current_price signal_strength : Q) (env : Env)
| WaitForFill (order_id : string) (polls : list Poll) (cancel_raises : bool)
| CheckPendingOrders (script : Script).

(** The engine after the call, whether it returned or raised. *)
Definition perform (op : Operation) (e : ExecutionEngine) : ExecutionEngine :=
  match op with
  | ExecuteSignal cfg signal current_price signal_strength env =>
      (execute_signal cfg signal current_price signal_strength env e).2
  | WaitForFill order_id polls cancel_raises =>
      (_wait_for_fill order_id polls cancel_raises e).2
  | CheckPendingOrders script =>
      (check_pending_orders script e).2
  end.

Definition run (ops : list Operation) (e : ExecutionEngine) : ExecutionEngine :=
  foldl (λ e op, perform op e) e ops.


(** *** The order state machine *)

(** What the engine maintains between calls: every entry of
    [pending_orders] refers to an existing order that carries the entry's key
    as its id and is PENDING, and every FILLED order carries its fill. *)
Definition consistent (e : ExecutionEngine) : Prop :=
  (∀ k r, pending_orders e !! k = Some r →
     ∃ o, heap e !! r = Some o ∧ order_id o = k ∧ status o = PENDING)
  ∧ (∀ r o, heap e !! r = Some o → status o = FILLED →
       is_Some (filled_price o) ∧ is_Some (filled_size o)).

(** How the orders of [e] are found again in [e']: each is still there, under
    the same id, and its status is the same unless it was PENDING. *)
Definition evolves (e e' : ExecutionEngine) : Prop :=
  ∀ r o, heap e !! r = Some o →
    ∃ o', heap e' !! r = Some o' ∧ order_id o' = order_id o
          ∧ (status o' = status o ∨ status o = PENDING).

(** The engines that calls produce from a fresh one. *)
Inductive reachable : ExecutionEngine → Prop :=
| reachable_init rm : reachable (init rm)
| reachable_perform op e : reachable e → reachable (perform op e).

(** The two assignments that end an order's life. *)
Definition finalizer (f : Order → Order) : Prop :=
  (∃ t p s, f = fill t p s) ∨ (∃ m, f = cancel m).

(** A loop turn that decides nothing: an error, no order in the response, or
    a status other than FILLED, CANCELLED and EXPIRED. *)
Definition inconclusive (p : Poll) : bool :=
  match reply p with
  | GetOrderRaises | GetOrderNothing => true
  | GetOrderResponse a =>
      negb (String.eqb (api_status a) "FILLED"
            || String.eqb (api_status a) "CANCELLED"
            || String.eqb (api_status a) "EXPIRED")
  end.

(** The step of the state machine that a call may take. *)
Definition step (e e' : ExecutionEngine) : Prop :=
  consistent e → consistent e' ∧ evolves e e'.

(** A sizing record that fits the signal it was computed for. *)
Definition compatible (signal : Signal) (d : Risk.OrderDetails) : Prop :=
  match d with
  | Risk.BuyDetails _ _ _ _ _ _ => signal = BUY
  | Risk.SellDetails _ _ _ _ _ => signal = SELL
  | Risk.NoDetails => False
  end.

(** The engine after [Order(...)] with status PENDING and
    [self.pending_orders[order.order_id] = order]. *)
Definition registered (o : Order) (e : ExecutionEngine) : ExecutionEngine :=
  set_pending_orders (<[order_id o := length (heap e)]> (pending_orders e))
    (set_heap (heap e ++ [o]) e).

(** The order that [_execute_paper_order] creates. *)
Definition paper_order (e : ExecutionEngine) (side : string) (size price : Q)
    (env : Env) : Order :=
  {| order_id := "PAPER-" +:+ pretty (total_orders e); side := side; size := size;
     price := Some price; status := PENDING; created_at := t_created env;
     filled_at := None; filled_price := None; filled_size := None;
     error_message := None |}.

(** *** Runs used in the statements below *)

Local Open Scope Q_scope.

Definition live_config : TradingConfig := with_mode "live" default_config.

Definition status_reply (status : string) : Poll :=
  {| reply := GetOrderResponse
       {| api_status := status; average_filled_price := 50010;
          api_filled_size := 2 # 100 |};
     polled_at := 3 |}.

Definition env_of (create : CreateOutcome) (polls : list Poll)
    (cancel_raises : bool) : Env :=
  {| t_cooldown := 1; t_remaining := 1; t_created := 2; t_filled := 3;
     t_entry := 4; t_trade := 4; create_order := create; polls := polls;
     cancel_raises := cancel_raises |}.


(** The pending order of the fill-waiting tests. *)
Definition test_order : Order :=
  {| order_id := "test-123"; side := "buy"; size := 2 # 1000;
     price := Some 50000; status := PENDING; created_at := 0;
     filled_at := None; filled_price := None; filled_size := None;
     error_message := None |}.

Definition with_test_order : ExecutionEngine :=
  registered test_order (init Risk.funded).

(** *** Statistics and start-up *)

(** The dict of [get_execution_stats]. *)
Record Stats := {
  s_total_orders : nat;
  s_successful_orders : nat;
  s_failed_orders : nat;
  s_pending_orders : nat;
  s_success_rate : Q
}.

Definition get_execution_stats (e : ExecutionEngine) : Stats := {|
  s_total_orders := total_orders e;
  s_successful_orders := successful_orders e;
  s_failed_orders := failed_orders e;
  s_pending_orders := base.size (pending_orders e);
  s_success_rate :=
    if (0 <? total_orders e)%nat
    then (inject_Z (Z.of_nat (successful_orders e))
          / inject_Z (Z.of_nat (total_orders e)))%Q
    else 0%Q
|}.

(** The order of the immediate-fill path. *)
Definition test_order_of (e : ExecutionEngine) (side : string) (size price : Q)
    (env : Env) : Order :=
  {| order_id := "TEST-" +:+ pretty (total_orders e); side := side; size := size;
     price := Some price; status := FILLED; created_at := t_created env;
     filled_at := Some (t_filled env); filled_price := Some price;
     filled_size := Some size; error_message := None |}.

(** The books after one more successful order [r]. *)
Definition booked (r : nat) (rm : Risk.RiskManager) (e : ExecutionEngine)
    : ExecutionEngine :=
  set_order_history (order_history e ++ [Some r])
    (set_counters (S (total_orders e)) (S (successful_orders e)) (failed_orders e)
       (set_risk_manager rm e)).

(** The fill price of the simulated-delay path. *)
Definition paper_fill_price (signal : Signal) (price : Q) : Q :=
  (price * (1 + (if signal_eqb signal BUY then 1 # 1000 else - (1 # 1000))))%Q.

End Engine.

(** ** The callbacks of the bot (main.py) *)

Module Bot.

Import Engine.
Local Open Scope engine_scope.

(** [on_price_update]: the exit check on a price tick, on the engine that
    holds the risk manager; [env] is what the [execute_signal] of an exit
    meets. *)
Definition on_price_update (cfg : TradingConfig) (price : Q) (env : Env) : M unit :=
  do e <- get;
  match Risk.current_position (risk_manager e) with
  | None => ret tt
  | Some _ =>
      let out := Risk.update_position price (risk_manager e) in
      modify (set_risk_manager (Risk.state out));;
      match Risk.value out with
      | Some exit_signal =>
          execute_signal cfg exit_signal price 1 env;;
          ret tt
      | None => ret tt
      end
  end.

End Bot.

(** * Properties *)

Lemma Qleb_le a b : Qleb a b = true ↔ (a <= b)%Q.
Proof. apply Qle_bool_iff. Qed.

Lemma Qltb_lt a b : Qltb a b = true ↔ (a < b)%Q.
Proof.
  unfold Qltb. rewrite negb_true_iff. split.
  - intros H. apply Qnot_le_lt. intros Hle.
    apply Qle_bool_iff in Hle. congruence.
  - intros H. destruct (Qle_bool b a) eqn:E; [|done].
    apply Qle_bool_iff in E. exfalso. exact (Qlt_not_le _ _ H E).
Qed.

Lemma Qgeb_ge a b : Qgeb a b = true ↔ (b <= a)%Q.
Proof. apply Qle_bool_iff. Qed.

Lemma Qgtb_gt a b : Qgtb a b = true ↔ (b < a)%Q.
Proof. apply (Qltb_lt b a). Qed.

Lemma Qleb_false a b : Qleb a b = false ↔ (b < a)%Q.
Proof.
  rewrite <- Qgtb_gt. unfold Qgtb, Qleb.
  destruct (Qle_bool a b); simpl; split; congruence.
Qed.

Lemma Qgeb_false a b : Qgeb a b = false ↔ (a < b)%Q.
Proof. apply (Qleb_false b a). Qed.

(** ** The Risk Manager *)

Module RiskFacts.

Import Risk.
Local Open Scope Q_scope.

(** *** Admission *)

Lemma can_trade_test_mode cfg signal price now now' rm :
  mode_trades cfg = false →
  can_trade cfg signal price now now' rm = Ok (true, TestModeAllowed).
Proof. intros H. unfold can_trade. by rewrite H. Qed.

(** C1, as stated, fails: in the default "test" mode a BUY is admitted while
    a position is open, and a SELL is admitted while none is. *)
Lemma can_trade_test_mode_admits :
  is_Some (current_position holding)
  ∧ can_trade default_config BUY 50000 0 0 holding = Ok (true, TestModeAllowed)
  ∧ current_position funded = None
  ∧ can_trade default_config SELL 50000 0 0 funded = Ok (true, TestModeAllowed).
Proof. repeat split; try reflexivity. by eexists. Qed.

(** C1, amended: in the modes "paper" and "live", a BUY is rejected whenever a
    position is open and a SELL whenever none is, at every price and time; in
    every other mode [can_trade] allows every signal. *)
Theorem can_trade_admission cfg price now now' rm :
  (trading_mode cfg = "paper" ∨ trading_mode cfg = "live" →
     (is_Some (current_position rm) →
        ∃ reason, can_trade cfg BUY price now now' rm = Ok (false, reason))
     ∧ (current_position rm = None →
        ∃ reason, can_trade cfg SELL price now now' rm = Ok (false, reason)))
  ∧ (trading_mode cfg ≠ "paper" → trading_mode cfg ≠ "live" →
     ∀ signal, can_trade cfg signal price now now' rm = Ok (true, TestModeAllowed)).
Proof.
  split.
  - intros Hmode.
    assert (Hm : mode_trades cfg = true).
    { unfold mode_trades. destruct Hmode as [-> | ->]; reflexivity. }
    split.
    + intros Hpos. unfold can_trade. rewrite Hm. simpl.
      destruct (_check_cooldown cfg now rm); simpl; [|by eexists].
      rewrite (bool_decide_eq_true_2 _ Hpos). by eexists.
    + intros Hnone. unfold can_trade. rewrite Hm. simpl.
      destruct (_check_cooldown cfg now rm); simpl; [|by eexists].
      rewrite Hnone. rewrite bool_decide_eq_false_2; [by eexists|].
      intros [? ?]; discriminate.
  - intros Hp Hl signal. apply can_trade_test_mode.
    unfold mode_trades. apply orb_false_intro; by apply String.eqb_neq.
Qed.

Lemma can_trade_admission_witness :
  (∃ reason, can_trade paper_config BUY 50000 1000 1000 holding = Ok (false, reason))
  ∧ (∃ reason, can_trade paper_config SELL 50000 1000 1000 funded = Ok (false, reason))
  ∧ can_trade default_config BUY 50000 1000 1000 holding = Ok (true, TestModeAllowed).
Proof.
  split; [|split].
  - apply (can_trade_admission paper_config 50000 1000 1000 holding).
    + left; reflexivity.
    + by eexists.
  - apply (can_trade_admission paper_config 50000 1000 1000 funded).
    + left; reflexivity.
    + reflexivity.
  - apply (can_trade_admission default_config 50000 1000 1000 holding);
      intros H; discriminate H.
Defined.

(** test_can_trade_paper_mode and the cooldown: 100 seconds after a trade,
    200 of the 300 seconds remain. *)
Example can_trade_paper_mode :
  can_trade paper_config BUY 50000 0 0 funded = Ok (true, TradeAllowed).
Proof. reflexivity. Qed.

Example can_trade_cooldown :
  can_trade paper_config SELL 50000 100 100 holding = Ok (false, CooldownActive 200).
Proof. reflexivity. Qed.

Example can_trade_price_zero :
  can_trade paper_config BUY 0 0 0 funded = Raise ZeroDivisionError.
Proof. reflexivity. Qed.

(** *** Sizing *)

(** C4, as stated, fails: at balance 10000, fraction 0.1, price 50000 and
    strength 1 the size is 0.02, which is not 10000 × 0.1 × 1; and at price 0
    no record is returned, the division by the price raises. *)
Lemma order_size_divides_by_price :
  (∃ d s, calculate_order_details default_config BUY 50000 1 funded = Ok d
          ∧ sized d = Some s
          ∧ s == 2 # 100
          ∧ ¬ s == available_balance funded * max_position_size default_config * 1)
  ∧ calculate_order_details default_config BUY 0 1 funded = Raise ZeroDivisionError.
Proof.
  split; [|reflexivity].
  eexists _, _. split; [reflexivity|]. split; [reflexivity|].
  split; [reflexivity|]. intros H. discriminate H.
Qed.

(** C4, amended: for every available balance, strength and price other than
    0, the BUY record has size = (available balance × max-position-fraction
    / price) × strength, value = size × price, stop_loss = price × (1 −
    stop-loss-percentage / 100) and take_profit = price × (1 +
    take-profit-percentage / 100); at balance 10000, fraction 0.1, price 50000
    and strength 1 the size is 0.02 and the value 1000. *)
Theorem calculate_order_details_buy :
  (∀ cfg rm price strength,
     ¬ price == 0 →
     let size := available_balance rm * max_position_size cfg / price * strength in
     let stop_loss := price * (1 - stop_loss_percentage cfg / 100) in
     let take_profit := price * (1 + take_profit_percentage cfg / 100) in
     calculate_order_details cfg BUY price strength rm =
       Ok (BuyDetails size (size * price) stop_loss take_profit
             (size * (price - stop_loss)) (size * (take_profit - price))))
  ∧ (∃ d s v, calculate_order_details default_config BUY 50000 1 funded = Ok d
              ∧ sized d = Some s ∧ s == 2 # 100
              ∧ valued d = Some v ∧ v == 1000).
Proof.
  split.
  - intros cfg rm price strength Hprice. simpl.
    unfold calculate_order_details, _calculate_position_size.
    destruct (Qeq_bool price 0) eqn:E; [|reflexivity].
    apply Qeq_bool_iff in E. contradiction.
  - eexists _, _, _. repeat split; reflexivity.
Qed.

Lemma calculate_order_details_buy_witness :
  ∃ size, calculate_order_details default_config BUY 50000 1 funded =
            Ok (BuyDetails size (size * 50000)
                  (50000 * (1 - 2 / 100)) (50000 * (1 + 5 / 100))
                  (size * (50000 - 50000 * (1 - 2 / 100)))
                  (size * (50000 * (1 + 5 / 100) - 50000)))
          ∧ size == 2 # 100.
Proof.
  eexists. split.
  - apply (proj1 calculate_order_details_buy default_config funded 50000 1).
    intros H. discriminate H.
  - reflexivity.
Defined.

(** *** Position bookkeeping *)

Lemma _update_metrics_frame rm :
  balance (_update_metrics rm) = balance rm
  ∧ available_balance (_update_metrics rm) = available_balance rm
  ∧ current_position (_update_metrics rm) = current_position rm
  ∧ trade_history (_update_metrics rm) = trade_history rm
  ∧ last_trade_time (_update_metrics rm) = last_trade_time rm
  ∧ total_pnl (_update_metrics rm) = total_pnl rm
  ∧ peak_balance (_update_metrics rm) = peak_balance rm.
Proof. by repeat split. Qed.




(** C6: with no open position, [close_position] returns without raising and
    leaves the manager exactly as it was: balance, available balance, total
    PnL, trade history, last-trade time and metrics; it logs one error. *)
Theorem close_position_without_position exit_price now rm :
  current_position rm = None →
  state (close_position exit_price now rm) = rm
  ∧ value (close_position exit_price now rm) = tt
  ∧ logged (close_position exit_price now rm)
      = [ {| level := ERROR; message := "No position to close" |} ].
Proof. intros H. unfold close_position. by rewrite H. Qed.

Lemma close_position_without_position_witness :
  state (close_position 49000 7 funded) = funded.
Proof.
  apply (close_position_without_position 49000 7 funded). reflexivity.
Defined.

(** C5: with an open position, [update_position] returns SELL when the price
    is at or below the stop loss or at or above the take profit, the stop-loss
    test coming first (when both hold, the stop-loss branch is the one that
    runs and logs); it returns None for a price strictly between the two, and
    None when there is no position.  The order of the two thresholds is not
    needed. *)
Theorem update_position_exit_signal price rm :
  (current_position rm = None →
     value (update_position price rm) = None)
  ∧ (∀ p, current_position rm = Some p →
       (price <= stop_loss p ∨ take_profit p <= price →
          value (update_position price rm) = Some SELL)
       ∧ (price <= stop_loss p →
          logged (update_position price rm) = [stop_loss_record])
       ∧ (stop_loss p < price → take_profit p <= price →
          logged (update_position price rm) = [take_profit_record])
       ∧ (stop_loss p < price → price < take_profit p →
          value (update_position price rm) = None
          ∧ logged (update_position price rm) = [])).
Proof.
  split.
  - intros H. unfold update_position. by rewrite H.
  - intros p Hp. unfold update_position. rewrite Hp. simpl.
    destruct (Qleb price (stop_loss p)) eqn:Esl;
      [apply Qleb_le in Esl | apply Qleb_false in Esl];
      (destruct (Qgeb price (take_profit p)) eqn:Etp;
        [apply Qgeb_ge in Etp | apply Qgeb_false in Etp]);
      simpl; repeat split; try done; intros;
      repeat match goal with
             | H : _ ∨ _ |- _ => destruct H
             | H1 : (?a < ?b)%Q, H2 : (?b <= ?a)%Q |- _ =>
                 exfalso; exact (Qlt_not_le _ _ H1 H2)
             | H1 : (?a < ?b)%Q, H2 : (?b < ?a)%Q |- _ =>
                 exfalso; exact (Qlt_not_le _ _ H1 (Qlt_le_weak _ _ H2))
             end.
Qed.

Lemma update_position_exit_signal_witness :
  value (update_position 49000 holding) = Some SELL
  ∧ logged (update_position 49000 holding) = [stop_loss_record]
  ∧ value (update_position 52500 holding) = Some SELL
  ∧ logged (update_position 52500 holding) = [take_profit_record]
  ∧ value (update_position 50000 holding) = None
  ∧ value (update_position 50000 funded) = None.
Proof.
  pose proof (proj2 (update_position_exit_signal 49000 holding) _ eq_refl) as Hlow.
  pose proof (proj2 (update_position_exit_signal 52500 holding) _ eq_refl) as Hhigh.
  pose proof (proj2 (update_position_exit_signal 50000 holding) _ eq_refl) as Hmid.
  pose proof (proj1 (update_position_exit_signal 50000 funded) eq_refl) as Hnone.
  destruct Hlow as (Hl1 & Hl2 & _), Hhigh as (Hh1 & _ & Hh2 & _),
    Hmid as (_ & _ & _ & Hm).
  split; [apply Hl1; left; vm_compute; discriminate|].
  split; [apply Hl2; vm_compute; discriminate|].
  split; [apply Hh1; right; vm_compute; discriminate|].
  split; [apply Hh2; vm_compute; (reflexivity || discriminate)|].
  split; [apply Hm; vm_compute; reflexivity|].
  exact Hnone.
Defined.

(** C10: [update_position] changes nothing but the [unrealized_pnl] of the
    open position: balance, available balance, total PnL, trade history,
    last-trade time and metrics stay, the position stays in place with its
    entry price, size, entry time, status, stop loss, take profit and
    realized PnL, also when SELL is returned; without a position the manager
    is unchanged. *)
Theorem update_position_frame price rm :
  let rm' := state (update_position price rm) in
  balance rm' = balance rm
  ∧ available_balance rm' = available_balance rm
  ∧ total_pnl rm' = total_pnl rm
  ∧ trade_history rm' = trade_history rm
  ∧ last_trade_time rm' = last_trade_time rm
  ∧ win_rate rm' = win_rate rm
  ∧ max_drawdown rm' = max_drawdown rm
  ∧ peak_balance rm' = peak_balance rm
  ∧ match current_position rm with
    | None => rm' = rm
    | Some p =>
        current_position rm'
          = Some (with_unrealized_pnl (size p * (price - entry_price p)) p)
        ∧ ∃ p', current_position rm' = Some p'
          ∧ entry_price p' = entry_price p
          ∧ size p' = size p
          ∧ entry_time p' = entry_time p
          ∧ status p' = status p
          ∧ stop_loss p' = stop_loss p
          ∧ take_profit p' = take_profit p
          ∧ realized_pnl p' = realized_pnl p
    end.
Proof.
  unfold update_position. destruct (current_position rm) as [p|] eqn:Hp.
  - simpl.
    destruct (Qleb price (stop_loss p)); [|destruct (Qgeb price (take_profit p))];
      simpl; repeat split; eexists; repeat split.
  - by repeat split.
Qed.

End RiskFacts.

(** ** The Signal Processor *)

Module SignalFacts.

Import Strategy.

Lemma _should_filter_signal_hold sp : _should_filter_signal HOLD sp = false.
Proof.
  unfold _should_filter_signal.
  by rewrite orb_true_r.
Qed.

Lemma _should_filter_signal_empty sig sp :
  signal_history sp = [] → _should_filter_signal sig sp = false.
Proof. intros H. unfold _should_filter_signal. by rewrite H. Qed.

(** C9: whatever the rules decide, a snapshot whose volume ratio is below
    0.5 yields HOLD; with empty history, RSI 25, close 49000 on the lower
    band and oversold threshold 30, volume ratio 1.5 gives BUY and volume
    ratio 0.3 gives HOLD. *)
Theorem volume_veto :
  (∀ cfg ind sp rsi close bb_upper bb_lower bb_position volume_ratio,
     ind !! "rsi" = Some rsi →
     ind !! "close" = Some close →
     ind !! "bb_upper" = Some bb_upper →
     ind !! "bb_lower" = Some bb_lower →
     ind !! "bb_position" = Some bb_position →
     ind !! "volume_ratio" = Some volume_ratio →
     flt volume_ratio (Fin (1 # 2)) = true →
     _generate_signal cfg ind sp = Ok HOLD)
  ∧ (∀ cfg ind sp volume_ratio sig,
       ind !! "volume_ratio" = Some volume_ratio →
       flt volume_ratio (Fin (1 # 2)) = true →
       _generate_signal cfg ind sp = Ok sig → sig = HOLD)
  ∧ (∀ cfg sp bb_upper bb_position,
       rsi_oversold cfg = 30%Z →
       signal_history sp = [] →
       _generate_signal cfg (scenario_snapshot (Fin (3 # 2)) bb_upper bb_position) sp
         = Ok BUY
       ∧ _generate_signal cfg (scenario_snapshot (Fin (3 # 10)) bb_upper bb_position) sp
         = Ok HOLD).
Proof.
  assert (Hveto : ∀ sig0 v sp,
    flt v (Fin (1 # 2)) = true →
    (let sig := if negb (signal_eqb sig0 HOLD) && flt v (Fin (1 # 2))
                then HOLD else sig0 in
     if _should_filter_signal sig sp then HOLD else sig) = HOLD).
  { intros sig0 v sp Hv. simpl. rewrite Hv.
    destruct sig0; simpl; by rewrite ?_should_filter_signal_hold. }
  split; [|split].
  - intros cfg ind sp rsi close up lo pos v Hrsi Hclose Hup Hlo Hpos Hv Hlow.
    unfold _generate_signal, getitem.
    rewrite Hrsi, Hclose, Hup, Hlo, Hpos, Hv. simpl.
    f_equal. apply (Hveto _ v sp Hlow).
  - intros cfg ind sp v sig Hv Hlow.
    unfold _generate_signal, getitem. rewrite Hv.
    destruct (ind !! "rsi"); simpl; [|discriminate].
    destruct (ind !! "close"); simpl; [|discriminate].
    destruct (ind !! "bb_upper"); simpl; [|discriminate].
    destruct (ind !! "bb_lower"); simpl; [|discriminate].
    destruct (ind !! "bb_position"); simpl; [|discriminate].
    intros [= <-]. apply (Hveto _ v sp Hlow).
  - intros cfg sp up pos Hcfg Hhist. split.
    + unfold _generate_signal, getitem, scenario_snapshot.
      rewrite Hcfg. simplify_map_eq. simpl.
      by rewrite (_should_filter_signal_empty _ _ Hhist).
    + unfold _generate_signal, getitem, scenario_snapshot.
      rewrite Hcfg. simplify_map_eq. simpl.
      by rewrite _should_filter_signal_hold.
Qed.

Lemma volume_veto_witness :
  _generate_signal default_config
    (scenario_snapshot (Fin (3 # 10)) (Fin 51000) (Fin 0)) init = Ok HOLD
  ∧ (∀ sig, _generate_signal default_config
              (scenario_snapshot (Fin (3 # 10)) NaN NaN) init = Ok sig →
            sig = HOLD)
  ∧ _generate_signal default_config
      (scenario_snapshot (Fin (3 # 2)) (Fin 51000) (Fin 0)) init = Ok BUY.
Proof.
  split; [|split].
  - apply (proj1 volume_veto default_config
             (scenario_snapshot (Fin (3 # 10)) (Fin 51000) (Fin 0)) init
             (Fin 25) (Fin 49000) (Fin 51000) (Fin 49000) (Fin 0) (Fin (3 # 10)));
      reflexivity.
  - intros sig.
    apply (proj1 (proj2 volume_veto) default_config
             (scenario_snapshot (Fin (3 # 10)) NaN NaN) init (Fin (3 # 10)) sig);
      reflexivity.
  - apply (proj2 (proj2 volume_veto) default_config init (Fin 51000) (Fin 0));
      reflexivity.
Defined.

(** C8, as stated, fails: five candles against windows 14 and 20 give HOLD
    and the empty snapshot, and the history stays empty. *)
Lemma process_short_input_keeps_history :
  ∃ sp', process flat_rsi flat_hband flat_mavg flat_lband flat_mean
           default_config (flat_candles 5) init = Ok ((HOLD, ∅), sp')
         ∧ signal_history sp' = signal_history init
         ∧ length (signal_history sp') ≠ S (length (signal_history init)).
Proof. eexists. split; [reflexivity|]. split; [reflexivity|]. discriminate. Qed.

Section Library.

Variable ta_rsi : list Q → Z → result pyfloat.
Variable ta_bollinger_hband : list Q → Z → Q → result pyfloat.
Variable ta_bollinger_mavg : list Q → Z → Q → result pyfloat.
Variable ta_bollinger_lband : list Q → Z → Q → result pyfloat.
Variable pd_rolling_mean : list Q → Z → result pyfloat.

Local Abbreviation calculate :=
  (_calculate_indicators ta_rsi ta_bollinger_hband ta_bollinger_mavg
     ta_bollinger_lband pd_rolling_mean).
Local Abbreviation run_process :=
  (process ta_rsi ta_bollinger_hband ta_bollinger_mavg ta_bollinger_lband
     pd_rolling_mean).

Lemma bind_Ok {A B} (r : result A) (k : A → result B) (b : B) :
  (r ≫= k) = Ok b → ∃ a, r = Ok a ∧ k a = Ok b.
Proof. destruct r as [a|e]; simpl; [eauto | discriminate]. Qed.

(** A computed snapshot has every key that [_generate_signal] reads, and
    comes from a non-empty candle sequence. *)
Lemma _calculate_indicators_keys cfg candles ind :
  calculate cfg candles = Ok ind →
  candles ≠ []
  ∧ is_Some (ind !! "rsi") ∧ is_Some (ind !! "close")
  ∧ is_Some (ind !! "bb_upper") ∧ is_Some (ind !! "bb_lower")
  ∧ is_Some (ind !! "bb_position") ∧ is_Some (ind !! "volume_ratio").
Proof.
  unfold _calculate_indicators. intros H.
  apply bind_Ok in H as (rsi & _ & H).
  apply bind_Ok in H as (up & _ & H).
  apply bind_Ok in H as (mid & _ & H).
  apply bind_Ok in H as (lo & _ & H).
  apply bind_Ok in H as (c & Hc & H).
  apply bind_Ok in H as (v & _ & H).
  apply bind_Ok in H as (avg & _ & H).
  injection H as <-. split.
  - intros ->. discriminate Hc.
  - repeat split; simplify_map_eq; by eexists.
Qed.

Lemma _generate_signal_total cfg ind sp :
  is_Some (ind !! "rsi") → is_Some (ind !! "close") →
  is_Some (ind !! "bb_upper") → is_Some (ind !! "bb_lower") →
  is_Some (ind !! "bb_position") → is_Some (ind !! "volume_ratio") →
  ∃ sig, _generate_signal cfg ind sp = Ok sig.
Proof.
  intros [? H1] [? H2] [? H3] [? H4] [? H5] [? H6].
  unfold _generate_signal, getitem. rewrite H1, H2, H3, H4, H5, H6. simpl.
  by eexists.
Qed.

(** C8, amended: a call with fewer candles than max(RSI window, Bollinger
    window) returns HOLD with the empty snapshot and leaves the history as it
    was; a call with at least that many candles that returns appends exactly
    one record, holding the returned signal and snapshot, and it does return
    whenever the indicators can be computed. *)
Theorem process_history cfg candles sp :
  ((Z.of_nat (length candles) < required cfg)%Z →
     run_process cfg candles sp = Ok ((HOLD, ∅), sp))
  ∧ ((required cfg ≤ Z.of_nat (length candles))%Z →
     ∀ sig ind sp', run_process cfg candles sp = Ok ((sig, ind), sp') →
       last_signal sp' = Some sig
       ∧ ∃ ts, signal_history sp' =
                 (signal_history sp ++
                  [ {| entry_timestamp := ts; signal := sig; indicators := ind |} ])%list)
  ∧ ((required cfg ≤ Z.of_nat (length candles))%Z →
     ∀ ind, calculate cfg candles = Ok ind →
       ∃ sig sp', run_process cfg candles sp = Ok ((sig, ind), sp')
                  ∧ length (signal_history sp') = S (length (signal_history sp))).
Proof.
  split; [|split].
  - intros Hshort. unfold process.
    by rewrite (proj2 (Z.ltb_lt _ _) Hshort).
  - intros Hlong sig ind sp'. unfold process.
    rewrite (proj2 (Z.ltb_ge _ _) Hlong).
    intros H.
    apply bind_Ok in H as (ind' & _ & H).
    apply bind_Ok in H as (sig' & _ & H).
    apply bind_Ok in H as (ts & _ & H).
    injection H as <- <- <-. split; [reflexivity|]. by exists ts.
  - intros Hlong ind Hind. unfold process.
    rewrite (proj2 (Z.ltb_ge _ _) Hlong). rewrite Hind. simpl.
    destruct (_calculate_indicators_keys _ _ _ Hind)
      as (Hne & H1 & H2 & H3 & H4 & H5 & H6).
    destruct (_generate_signal_total cfg ind sp H1 H2 H3 H4 H5 H6) as [sig Hsig].
    rewrite Hsig. simpl. unfold index_last.
    destruct (last candles) as [c|] eqn:Hlast.
    + simpl. eexists _, _. split; [reflexivity|].
      simpl. rewrite length_app. simpl. lia.
    + apply last_None in Hlast. contradiction.
Qed.

End Library.

Lemma process_history_witness :
  process flat_rsi flat_hband flat_mavg flat_lband flat_mean
    default_config (flat_candles 5) init = Ok ((HOLD, ∅), init)
  ∧ (∃ sp', process flat_rsi flat_hband flat_mavg flat_lband flat_mean
              default_config (flat_candles 20) init
            = Ok ((HOLD, scenario_flat), sp')
            ∧ last_signal sp' = Some HOLD
            ∧ length (signal_history sp') = 1%nat)
  ∧ ∃ sig sp', process flat_rsi flat_hband flat_mavg flat_lband flat_mean
                 default_config (flat_candles 20) init
               = Ok ((sig, scenario_flat), sp')
               ∧ length (signal_history sp') = 1%nat.
Proof.
  split; [|split].
  - apply (process_history flat_rsi flat_hband flat_mavg flat_lband flat_mean
             default_config (flat_candles 5) init).
    vm_compute. reflexivity.
  - eexists. split; [vm_compute; reflexivity|].
    destruct (process_history flat_rsi flat_hband flat_mavg flat_lband flat_mean
                default_config (flat_candles 20) init) as (_ & Happend & _).
    edestruct Happend as (Hlast & ts & Hhist).
    + vm_compute. discriminate.
    + vm_compute. reflexivity.
    + split; [exact Hlast|]. rewrite Hhist. reflexivity.
  - apply (process_history flat_rsi flat_hband flat_mavg flat_lband flat_mean
             default_config (flat_candles 20) init).
    + vm_compute. discriminate.
    + vm_compute. reflexivity.
Defined.

(** *** Checks from the test suite, on the model *)

(** test_whipsaw: after a SELL, the BUY of Scenario A is held back. *)
Example whipsaw_after_sell :
  _generate_signal default_config
    (scenario_snapshot (Fin (3 # 2)) (Fin 51000) (Fin 0))
    {| last_signal := Some SELL;
       signal_history :=
         [ {| entry_timestamp := 0%Q; signal := SELL; indicators := ∅ |} ] |}
  = Ok HOLD.
Proof. reflexivity. Qed.

(** A snapshot without the key that is read first. *)
Example missing_key_raises :
  _generate_signal default_config ∅ init = Raise (KeyError "rsi").
Proof. reflexivity. Qed.

End SignalFacts.

(** ** The Execution Engine *)

Module EngineFacts.

Import Engine.
Local Open Scope engine_scope.

(** *** Computations that keep a preorder on engines *)

Section Preserves.

Variable R : ExecutionEngine → ExecutionEngine → Prop.
Hypothesis R_refl : ∀ e, R e e.
Hypothesis R_trans : ∀ e1 e2 e3, R e1 e2 → R e2 e3 → R e1 e3.

Definition preserves {A} (m : M A) : Prop := ∀ e, R e (m e).2.

Lemma preserves_ret {A} (a : A) : preserves (ret a).
Proof. intros e. apply R_refl. Qed.

Lemma preserves_raise {A} x : preserves (raise (A:=A) x).
Proof. intros e. apply R_refl. Qed.

Lemma preserves_get : preserves get.
Proof. intros e. apply R_refl. Qed.

Lemma preserves_lift {A} (r : result A) : preserves (lift r).
Proof. intros e. apply R_refl. Qed.

Lemma preserves_pending_get k : preserves (pending_get k).
Proof. intros e. apply R_refl. Qed.

Lemma preserves_modify f : (∀ e, R e (f e)) → preserves (modify f).
Proof. intros H e. apply H. Qed.

Lemma preserves_bind {A B} (m : M A) (k : A → M B) :
  preserves m → (∀ a, preserves (k a)) → preserves (bind m k).
Proof.
  intros Hm Hk e. unfold bind. specialize (Hm e).
  destruct (m e) as [[a|x] e1]; simpl in *; [|done].
  eapply R_trans; [exact Hm | apply Hk].
Qed.

Lemma preserves_try_except {A} (body : M A) handler :
  preserves body → (∀ x, preserves (handler x)) →
  preserves (try_except body handler).
Proof.
  intros Hb Hh e. unfold try_except. specialize (Hb e).
  destruct (body e) as [[a|x] e1]; simpl in *; [done|].
  eapply R_trans; [exact Hb | apply Hh].
Qed.

End Preserves.

(** *** The step relation *)

Lemma evolves_refl e : evolves e e.
Proof. intros r o H. exists o. auto. Qed.

Lemma evolves_trans e1 e2 e3 : evolves e1 e2 → evolves e2 e3 → evolves e1 e3.
Proof.
  intros H12 H23 r o Ho.
  destruct (H12 r o Ho) as (o2 & Ho2 & Hid2 & Hst2).
  destruct (H23 r o2 Ho2) as (o3 & Ho3 & Hid3 & Hst3).
  exists o3. split; [done|]. split; [congruence|].
  destruct Hst2 as [Hst2|]; [|by right].
  destruct Hst3 as [Hst3|Hst3]; [left|right]; congruence.
Qed.

Lemma step_refl e : step e e.
Proof. intros H. split; [done | apply evolves_refl]. Qed.

Lemma step_trans e1 e2 e3 : step e1 e2 → step e2 e3 → step e1 e3.
Proof.
  intros H12 H23 H1. destruct (H12 H1) as [H2 E12].
  destruct (H23 H2) as [H3 E23]. split; [done|].
  by eapply evolves_trans.
Qed.

Lemma same_orders_step e e' :
  heap e' = heap e → pending_orders e' = pending_orders e → step e e'.
Proof.
  intros Hh Hp [Hpend Hfill]. split; [split|].
  - intros k r. rewrite Hp, Hh. apply Hpend.
  - intros r o. rewrite Hh. apply Hfill.
  - intros r o. rewrite Hh. intros Ho. exists o. auto.
Qed.

Lemma finalizer_order_id f o : finalizer f → order_id (f o) = order_id o.
Proof. intros [(t & p & s & ->) | (m & ->)]; reflexivity. Qed.

Lemma finalizer_filled f o :
  finalizer f → status (f o) = FILLED →
  is_Some (filled_price (f o)) ∧ is_Some (filled_size (f o)).
Proof.
  intros [(t & p & s & ->) | (m & ->)]; simpl; [|discriminate].
  intros _. split; by eexists.
Qed.

(** An order leaves the pending set, with or without a final assignment. *)
Lemma settle_step e e' k r :
  pending_orders e !! k = Some r →
  pending_orders e' = delete k (pending_orders e) →
  (heap e' = heap e ∨ ∃ f, finalizer f ∧ heap e' = alter f r (heap e)) →
  step e e'.
Proof.
  intros Hk Hp Hh [Hpend Hfill].
  destruct (Hpend k r Hk) as (o & Ho & Hid & Hst).
  assert (Hother : ∀ r', r' ≠ r → heap e' !! r' = heap e !! r').
  { intros r' Hne. destruct Hh as [-> | (f & _ & ->)]; [done|].
    by apply list_lookup_alter_ne. }
  split; [split|].
  - intros k' r'. rewrite Hp. intros Hk'.
    apply lookup_delete_Some in Hk' as [Hne Hk'].
    destruct (Hpend k' r' Hk') as (o' & Ho' & Hid' & Hst').
    exists o'. split; [|done].
    rewrite Hother; [done|]. intros ->. congruence.
  - intros r' o'. destruct (decide (r' = r)) as [->|Hne].
    + destruct Hh as [-> | (f & Hf & ->)].
      * apply Hfill.
      * rewrite list_lookup_alter_eq, Ho. simpl. intros [= <-].
        by apply finalizer_filled.
    + rewrite (Hother _ Hne). apply Hfill.
  - intros r' o'. destruct (decide (r' = r)) as [->|Hne].
    + rewrite Ho. intros [= <-].
      destruct Hh as [-> | (f & Hf & ->)].
      * exists o. auto.
      * exists (f o). rewrite list_lookup_alter_eq, Ho. simpl.
        split; [done|]. split; [by apply finalizer_order_id | by right].
    + intros Ho'. exists o'. rewrite (Hother _ Hne). auto.
Qed.

(** New orders leave the old ones in place. *)
Lemma extend_evolves e e' tail :
  heap e' = (heap e ++ tail)%list → evolves e e'.
Proof.
  intros Hh r o Ho. exists o. rewrite Hh.
  rewrite lookup_app_l; [auto|]. by eapply lookup_lt_Some.
Qed.

(** *** Waiting for a fill *)

Ltac run_engine :=
  unfold bind, try_except, client_call, update_order, pending_del, pending_get,
    pending_set, history_append, count_total, count_success, count_failure,
    risk_open_position, risk_close_position, new_order, modify, get, lift,
    ret, raise; simpl.

(** The loop either returns with the order out of the pending set and one
    final assignment made, or runs out of turns with orders untouched. *)
Lemma poll_loop_spec k r polls : ∀ e,
  pending_orders e !! k = Some r →
  ∃ b e', poll_loop k r polls e = (Ok b, e')
    ∧ if b
      then pending_orders e' = delete k (pending_orders e)
           ∧ ∃ f, finalizer f ∧ heap e' = alter f r (heap e)
      else pending_orders e' = pending_orders e ∧ heap e' = heap e.
Proof.
  induction polls as [|p polls IH]; intros e Hk.
  - exists false, e. by repeat split.
  - simpl. run_engine.
    destruct (reply p) as [| |api]; simpl.
    + apply (IH (set_client_calls _ e)). exact Hk.
    + apply (IH (set_client_calls _ e)). exact Hk.
    + destruct (String.eqb (api_status api) "FILLED"); simpl.
      { rewrite Hk. simpl. eexists true, _. split; [reflexivity|].
        split; [reflexivity|].
        eexists. split; [|reflexivity]. left. by eexists _, _, _. }
      destruct (String.eqb (api_status api) "CANCELLED"
                || String.eqb (api_status api) "EXPIRED"); simpl.
      { rewrite Hk. simpl. eexists true, _. split; [reflexivity|].
        split; [reflexivity|].
        eexists. split; [|reflexivity]. right. by eexists. }
      apply (IH (set_client_calls _ e)). exact Hk.
Qed.

Lemma _wait_for_fill_absent k polls c e :
  pending_orders e !! k = None →
  _wait_for_fill k polls c e = (Ok None, e).
Proof. intros H. unfold _wait_for_fill. run_engine. by rewrite H. Qed.

(** Every way out of [_wait_for_fill] for a pending order returns the order
    and takes it out of the pending set. *)
Lemma _wait_for_fill_spec k r polls c e :
  pending_orders e !! k = Some r →
  ∃ e', _wait_for_fill k polls c e = (Ok (Some r), e')
  ∧ pending_orders e' = delete k (pending_orders e)
  ∧ (heap e' = heap e ∨ ∃ f, finalizer f ∧ heap e' = alter f r (heap e)).
Proof.
  intros Hk. unfold _wait_for_fill.
  destruct (poll_loop_spec k r polls e Hk) as (b & e1 & Hloop & Hb).
  unfold bind, pending_get. rewrite Hk, Hloop.
  destruct b.
  - destruct Hb as (Hp & f & Hf & Hh). unfold ret.
    eexists. split; [reflexivity|]. split; [done|]. right. by exists f.
  - destruct Hb as (Hp & Hh). run_engine.
    destruct c; simpl; rewrite Hp, Hk; simpl.
    + eexists. split; [reflexivity|]. split; [done|]. by left.
    + eexists. split; [reflexivity|]. split; [done|].
      right. eexists. split; [|by simpl; rewrite Hh]. right. by eexists.
Qed.

Lemma _wait_for_fill_step k polls c : preserves step (_wait_for_fill k polls c).
Proof.
  intros e. destruct (pending_orders e !! k) as [r|] eqn:Hk.
  - destruct (_wait_for_fill_spec k r polls c e Hk) as (e' & -> & Hp & Hh).
    by eapply settle_step.
  - rewrite (_wait_for_fill_absent _ _ _ _ Hk). apply step_refl.
Qed.

(** *** The execution paths *)

Lemma step_ret {A} (a : A) : preserves step (ret a).
Proof. apply preserves_ret, step_refl. Qed.

Lemma step_raise {A} x : preserves step (raise (A:=A) x).
Proof. apply preserves_raise, step_refl. Qed.

Lemma step_get : preserves step get.
Proof. apply preserves_get, step_refl. Qed.

Lemma step_lift {A} (r : result A) : preserves step (lift r).
Proof. apply preserves_lift, step_refl. Qed.

Lemma step_bind {A B} (m : M A) (k : A → M B) :
  preserves step m → (∀ a, preserves step (k a)) → preserves step (bind m k).
Proof. apply preserves_bind, step_trans. Qed.

Lemma step_try_except {A} (body : M A) handler :
  preserves step body → (∀ x, preserves step (handler x)) →
  preserves step (try_except body handler).
Proof. apply preserves_try_except, step_trans. Qed.

Lemma step_bind_lift {A B} (r : result A) (k : A → M B) :
  (∀ a, r = Ok a → preserves step (k a)) → preserves step (bind (lift r) k).
Proof.
  intros H e. unfold bind, lift. destruct r as [a|x]; simpl.
  - by apply H.
  - apply step_refl.
Qed.

Lemma step_quiet f :
  (∀ e, heap (f e) = heap e) → (∀ e, pending_orders (f e) = pending_orders e) →
  preserves step (modify f).
Proof. intros Hh Hp e. apply same_orders_step; [apply Hh | apply Hp]. Qed.

Lemma client_call_step c : preserves step (client_call c).
Proof. by apply step_quiet. Qed.

Lemma history_append_step r : preserves step (history_append r).
Proof. by apply step_quiet. Qed.

Lemma count_total_step : preserves step count_total.
Proof. by apply step_quiet. Qed.

Lemma count_success_step : preserves step count_success.
Proof. by apply step_quiet. Qed.

Lemma count_failure_step : preserves step count_failure.
Proof. by apply step_quiet. Qed.

Lemma risk_open_position_step p s sl tp t1 t2 :
  preserves step (risk_open_position p s sl tp t1 t2).
Proof. by apply step_quiet. Qed.

Lemma risk_close_position_step p t : preserves step (risk_close_position p t).
Proof. by apply step_quiet. Qed.

(** An order created FILLED carries its fill; it is in no pending set. *)
Lemma new_order_step o :
  (status o = FILLED → is_Some (filled_price o) ∧ is_Some (filled_size o)) →
  preserves step (new_order o).
Proof.
  intros Ho e [Hpend Hfill]. simpl. split; [split|].
  - intros k r Hk. destruct (Hpend k r Hk) as (o' & Ho' & ?).
    exists o'. split; [|done]. simpl.
    rewrite lookup_app_l; [done|]. by eapply lookup_lt_Some.
  - intros r o'. simpl. rewrite lookup_app_Some.
    intros [Hold | [_ Hnew]]; [by eapply Hfill|].
    apply list_lookup_singleton_Some in Hnew as [_ <-]. exact Ho.
  - by eapply extend_evolves.
Qed.

Lemma registered_step o e : status o = PENDING → step e (registered o e).
Proof.
  intros Ho [Hpend Hfill]. split; [split|].
  - intros k r. simpl. rewrite lookup_insert_Some.
    intros [[<- <-] | [Hne Hk]].
    + exists o. split; [|done]. by apply list_lookup_middle.
    + destruct (Hpend k r Hk) as (o' & Ho' & ?).
      exists o'. split; [|done].
      rewrite lookup_app_l; [done|]. by eapply lookup_lt_Some.
  - intros r o'. simpl. rewrite lookup_app_Some.
    intros [Hold | [_ Hnew]]; [by eapply Hfill|].
    apply list_lookup_singleton_Some in Hnew as [_ <-]. congruence.
  - by eapply extend_evolves.
Qed.

Lemma register_bind {A} o (k : nat → M A) :
  status o = PENDING →
  (∀ r, preserves step (k r)) →
  preserves step (do order <- new_order o; pending_set (order_id o) order;; k order).
Proof.
  intros Ho Hk e. run_engine.
  eapply step_trans; [apply (registered_step o e Ho)|].
  apply (Hk (length (heap e)) (registered o e)).
Qed.

Ltac quiet_steps :=
  repeat first
    [ apply step_ret | apply step_raise | apply step_get | apply step_lift
    | apply client_call_step | apply history_append_step
    | apply count_total_step | apply count_success_step
    | apply count_failure_step | apply risk_open_position_step
    | apply risk_close_position_step | apply _wait_for_fill_step
    | apply step_try_except; [|intros ?]
    | apply step_bind; [|intros ?]
    | match goal with
      | |- preserves _ (if ?b then _ else _) => destruct b
      | |- preserves _ (match ?x with _ => _ end) => destruct x
      end ].

Lemma _execute_test_order_step signal od price env :
  preserves step (_execute_test_order signal od price env).
Proof.
  unfold _execute_test_order. quiet_steps.
  apply new_order_step. simpl. intros _. split; by eexists.
Qed.

Lemma _execute_paper_order_step signal od price env :
  compatible signal od → preserves step (_execute_paper_order signal od price env).
Proof.
  intros Hc e. unfold _execute_paper_order.
  destruct od as [s v sl tp ra pp | s v ep xp pnl |]; simpl in Hc; [| |done];
    subst signal; run_engine; rewrite lookup_insert_eq; simpl.
  - eapply step_trans;
      [apply (registered_step (paper_order e "buy" s price env) e eq_refl)|].
    eapply (settle_step _ _ ("PAPER-" +:+ pretty (total_orders e)) (length (heap e))).
    + simpl. apply lookup_insert_eq.
    + reflexivity.
    + right. eexists. split; [left; by eexists _, _, _ | reflexivity].
  - eapply step_trans;
      [apply (registered_step (paper_order e "sell" s price env) e eq_refl)|].
    eapply (settle_step _ _ ("PAPER-" +:+ pretty (total_orders e)) (length (heap e))).
    + simpl. apply lookup_insert_eq.
    + reflexivity.
    + right. eexists. split; [left; by eexists _, _, _ | reflexivity].
Qed.

Lemma _execute_live_order_step cfg signal od price env :
  preserves step (_execute_live_order cfg signal od price env).
Proof.
  unfold _execute_live_order.
  apply step_try_except; [|intros ?; quiet_steps].
  apply step_bind; [apply step_get | intros e0].
  apply step_bind; [apply step_lift | intros request].
  apply step_bind; [apply client_call_step | intros _].
  destruct (create_order env) as [| |id]; [quiet_steps..|].
  apply step_bind; [apply step_lift | intros side].
  apply step_bind; [apply step_lift | intros size].
  apply (register_bind
           {| order_id := id; side := side; size := size; price := Some price;
              status := PENDING; created_at := t_created env; filled_at := None;
              filled_price := None; filled_size := None; error_message := None |});
    [reflexivity|].
  intros r. quiet_steps.
Qed.

Lemma calculate_order_details_compatible cfg signal price strength rm od :
  Risk.calculate_order_details cfg signal price strength rm = Ok od →
  is_empty od = false → compatible signal od.
Proof.
  unfold Risk.calculate_order_details, Risk._calculate_position_size.
  destruct signal; simpl.
  - destruct (Qeq_bool price 0); simpl; [discriminate|]. by intros [= <-].
  - destruct (Risk.current_position rm); intros [= <-]; [done | discriminate].
  - destruct (Risk.current_position rm); intros [= <-]; discriminate.
Qed.

Lemma execute_signal_step cfg signal price strength env :
  preserves step (execute_signal cfg signal price strength env).
Proof.
  unfold execute_signal.
  apply step_bind; [apply step_get | intros e0].
  apply step_bind; [apply step_lift | intros [can reason]].
  destruct (negb can); [apply step_ret|].
  apply step_bind_lift. intros od Hod.
  destruct (is_empty od) eqn:Hempty; [apply step_ret|].
  destruct (String.eqb (trading_mode cfg) "test").
  { apply step_bind; [apply _execute_test_order_step | intros r; apply step_ret]. }
  destruct (String.eqb (trading_mode cfg) "paper").
  { apply step_bind; [|intros r; apply step_ret].
    apply _execute_paper_order_step.
    by eapply calculate_order_details_compatible. }
  apply _execute_live_order_step.
Qed.

Lemma wait_each_step script ids : preserves step (wait_each script ids).
Proof.
  induction ids as [|k ids IH]; simpl.
  - apply step_ret.
  - apply step_bind; [apply _wait_for_fill_step | intros _; exact IH].
Qed.

Lemma check_pending_orders_step script : preserves step (check_pending_orders script).
Proof.
  unfold check_pending_orders.
  apply step_bind; [apply step_get | intros e0; apply wait_each_step].
Qed.

Lemma perform_step op e : step e (perform op e).
Proof.
  destruct op; simpl.
  - apply execute_signal_step.
  - apply _wait_for_fill_step.
  - apply check_pending_orders_step.
Qed.

Lemma init_consistent rm : consistent (init rm).
Proof.
  split.
  - intros k r H. simpl in H. by rewrite lookup_empty in H.
  - intros r o H. simpl in H. by rewrite lookup_nil in H.
Qed.

Lemma reachable_consistent e : reachable e → consistent e.
Proof.
  induction 1 as [rm | op e _ IH].
  - apply init_consistent.
  - by apply perform_step.
Qed.

Lemma reachable_run ops : ∀ e, reachable e → reachable (run ops e).
Proof.
  induction ops as [|op ops IH]; intros e He; [done|].
  apply IH. by constructor.
Qed.


(** The fill fields read by the live path are there: every FILLED order of a
    reachable engine carries both. *)
Lemma filled_orders_carry_fill e r o :
  reachable e → heap e !! r = Some o → status o = FILLED →
  is_Some (filled_price o) ∧ is_Some (filled_size o).
Proof. intros He. apply (proj2 (reachable_consistent e He)). Qed.



(** *** The timeout of a fill-wait *)

Lemma poll_loop_inconclusive k r polls : ∀ e,
  forallb inconclusive polls = true →
  ∃ e', poll_loop k r polls e = (Ok false, e')
    ∧ heap e' = heap e ∧ pending_orders e' = pending_orders e.
Proof.
  induction polls as [|p polls IH]; intros e Hall.
  - exists e. by repeat split.
  - simpl in Hall. apply andb_true_iff in Hall as [Hp Hall].
    assert (Hturn : poll_loop k r (p :: polls) e
                    = poll_loop k r polls
                        (set_client_calls (client_calls e ++ [GetOrder k]) e)).
    { simpl. run_engine. unfold inconclusive in Hp.
      destruct (reply p) as [| |api]; simpl; [done..|].
      apply negb_true_iff, orb_false_iff in Hp as [Hp Hexp].
      apply orb_false_iff in Hp as [Hfill Hcan].
      by rewrite Hfill, Hcan, Hexp. }
    rewrite Hturn.
    destruct (IH (set_client_calls (client_calls e ++ [GetOrder k]) e) Hall)
      as (e' & -> & Hh & Hpend).
    by exists e'.
Qed.

(** When the cancel goes through, the timeout marks the order CANCELLED
    with "Order timeout" and takes it out of the pending set. *)
Lemma timeout_with_cancel e k r polls :
  pending_orders e !! k = Some r →
  forallb inconclusive polls = true →
  ∃ e', _wait_for_fill k polls false e = (Ok (Some r), e')
    ∧ heap e' = alter (cancel "Order timeout") r (heap e)
    ∧ pending_orders e' = delete k (pending_orders e)
    ∧ last (client_calls e') = Some (CancelOrders [k]).
Proof.
  intros Hk Hall.
  destruct (poll_loop_inconclusive k r polls e Hall) as (e1 & Hloop & Hh & Hp).
  unfold _wait_for_fill, bind, pending_get. rewrite Hk, Hloop.
  run_engine. rewrite Hp, Hk. eexists. split; [reflexivity|]. simpl.
  rewrite Hh. repeat split. apply last_snoc.
Qed.

(** C7 does not hold of the code: when the wait for a pending order runs out
    of turns without a terminal status and the cancel call raises, the cancel
    has been attempted, its error is swallowed and the order leaves the
    pending set, but no order is changed: the order keeps the status PENDING
    and no error is recorded on it. *)
Theorem timeout_with_failing_cancel e k r polls :
  pending_orders e !! k = Some r →
  forallb inconclusive polls = true →
  ∃ e', _wait_for_fill k polls true e = (Ok (Some r), e')
    ∧ heap e' = heap e
    ∧ pending_orders e' = delete k (pending_orders e)
    ∧ last (client_calls e') = Some (CancelOrders [k]).
Proof.
  intros Hk Hall.
  destruct (poll_loop_inconclusive k r polls e Hall) as (e1 & Hloop & Hh & Hp).
  unfold _wait_for_fill, bind, pending_get. rewrite Hk, Hloop.
  run_engine. rewrite Hp, Hk. eexists. split; [reflexivity|]. simpl.
  repeat split; [done|]. apply last_snoc.
Qed.

Lemma timeout_with_failing_cancel_witness :
  ∃ e', _wait_for_fill "test-123" [status_reply "OPEN"] true with_test_order
          = (Ok (Some 0%nat), e')
    ∧ heap e' = [test_order]
    ∧ status <$> heap e' !! 0%nat = Some PENDING
    ∧ error_message <$> heap e' !! 0%nat = Some None
    ∧ pending_orders e' !! "test-123" = None.
Proof.
  destruct (timeout_with_failing_cancel with_test_order "test-123" 0
              [status_reply "OPEN"])
    as (e' & Hrun & Hh & Hp & _).
  - vm_compute. reflexivity.
  - vm_compute. reflexivity.
  - exists e'. split; [exact Hrun|]. rewrite Hh, Hp.
    repeat split; apply lookup_delete_eq.
Defined.

(** *** Checks from the test suite, on the model *)

(** Scenario E: in test mode a BUY at 50000 is FILLED at once and opens the
    position at 50000. *)
Example immediate_fill :
  ∃ e', execute_signal default_config BUY 50000 1 (env_of CreateNothing [] false)
          (init Risk.funded) = (Ok (Some 0%nat), e')
    ∧ status <$> heap e' !! 0%nat = Some FILLED
    ∧ order_id <$> heap e' !! 0%nat = Some "TEST-0"
    ∧ Risk.entry_price <$> Risk.current_position (risk_manager e') = Some 50000%Q
    ∧ pending_orders e' = ∅.
Proof. eexists. repeat split. Qed.

(** test_wait_for_fill_success. *)
Example wait_for_fill_success :
  ∃ e', _wait_for_fill "test-123" [status_reply "FILLED"] false with_test_order
          = (Ok (Some 0%nat), e')
    ∧ status <$> heap e' !! 0%nat = Some FILLED
    ∧ (heap e' !! 0%nat ≫= filled_price) = Some 50010%Q
    ∧ pending_orders e' !! "test-123" = None.
Proof. eexists. repeat split. Qed.

(** test_wait_for_fill_cancelled. *)
Example wait_for_fill_cancelled :
  ∃ e', _wait_for_fill "test-123" [status_reply "CANCELLED"] false with_test_order
          = (Ok (Some 0%nat), e')
    ∧ status <$> heap e' !! 0%nat = Some CANCELLED
    ∧ (heap e' !! 0%nat ≫= error_message) = Some "Order CANCELLED"
    ∧ pending_orders e' !! "test-123" = None.
Proof. eexists. repeat split. Qed.

(** test_wait_for_fill_api_error: errors while polling, then the timeout. *)
Example wait_for_fill_api_error :
  ∃ e', _wait_for_fill "test-123"
          [ {| reply := GetOrderRaises; polled_at := 1%Q |} ] false with_test_order
          = (Ok (Some 0%nat), e')
    ∧ status <$> heap e' !! 0%nat = Some CANCELLED
    ∧ (heap e' !! 0%nat ≫= error_message) = Some "Order timeout"
    ∧ client_calls e' = [GetOrder "test-123"; CancelOrders ["test-123"]].
Proof. eexists. repeat split. Qed.

(** test_wait_for_fill_nonexistent_order. *)
Example wait_for_fill_nonexistent_order :
  _wait_for_fill "nonexistent" [status_reply "FILLED"] false with_test_order
  = (Ok None, with_test_order).
Proof. reflexivity. Qed.

(** A live order that times out while its cancel fails is handed back
    PENDING, counted as failed and filed in the history. *)
Example live_timeout_with_failing_cancel :
  ∃ e', execute_signal live_config BUY 50000 1
          (env_of (CreateResponse "venue-1") [status_reply "OPEN"] true)
          (init Risk.funded) = (Ok (Some 0%nat), e')
    ∧ status <$> heap e' !! 0%nat = Some PENDING
    ∧ order_history e' = [Some 0%nat]
    ∧ failed_orders e' = 1%nat
    ∧ pending_orders e' !! "venue-1" = None.
Proof. eexists. repeat split. Qed.

End EngineFacts.

(** * Further properties *)

(** ** The Risk Manager: admission, sizing and metrics *)

Module RiskLaws.

Import Risk.
Local Open Scope Q_scope.

Lemma mode_trades_true cfg :
  trading_mode cfg = "paper" ∨ trading_mode cfg = "live" → mode_trades cfg = true.
Proof. unfold mode_trades. intros [-> | ->]; reflexivity. Qed.

Lemma Qeq_bool_false x y : ¬ x == y → Qeq_bool x y = false.
Proof.
  intros H. destruct (Qeq_bool x y) eqn:E; [|done].
  apply Qeq_bool_iff in E. contradiction.
Qed.

Lemma Qltb_false a b : Qltb a b = false ↔ b <= a.
Proof.
  unfold Qltb. rewrite negb_false_iff. apply Qle_bool_iff.
Qed.

(** X1: in paper and live mode, at a price other than 0, a BUY is allowed
    exactly when the cooldown has elapsed, no position is open, the position
    value available balance × max-position-fraction / price × price reaches
    the minimum order size, and so does the available balance. *)
Theorem can_trade_buy_allowed cfg price now now' rm :
  trading_mode cfg = "paper" ∨ trading_mode cfg = "live" →
  ¬ price == 0 →
  ((∃ reason, can_trade cfg BUY price now now' rm = Ok (true, reason))
   ↔ (∀ last, last_trade_time rm = Some last →
        inject_Z (cooldown_period cfg) <= now - last)
     ∧ current_position rm = None
     ∧ min_order_size cfg
         <= available_balance rm * max_position_size cfg / price * price
     ∧ min_order_size cfg <= available_balance rm).
Proof.
  intros Hmode Hprice. unfold can_trade, _calculate_position_size, _check_cooldown.
  rewrite (mode_trades_true _ Hmode), (Qeq_bool_false _ _ Hprice). simpl.
  split.
  - intros [reason H].
    destruct (last_trade_time rm) as [last|] eqn:Hlast.
    + destruct (Qgeb (now - last) (inject_Z (cooldown_period cfg))) eqn:Hcool;
        simpl in H; [|discriminate].
      apply Qgeb_ge in Hcool.
      destruct (current_position rm) as [p|]; simpl in H; [discriminate|].
      destruct (Qltb _ (min_order_size cfg)) eqn:Hmin; simpl in H; [discriminate|].
      destruct (Qltb (available_balance rm) _) eqn:Hbal; simpl in H; [discriminate|].
      apply Qltb_false in Hmin, Hbal.
      repeat split; try done. by intros ? [= <-].
    + simpl in H.
      destruct (current_position rm) as [p|]; simpl in H; [discriminate|].
      destruct (Qltb _ (min_order_size cfg)) eqn:Hmin; simpl in H; [discriminate|].
      destruct (Qltb (available_balance rm) _) eqn:Hbal; simpl in H; [discriminate|].
      apply Qltb_false in Hmin, Hbal.
      repeat split; try done.
  - intros (Hcool & Hpos & Hmin & Hbal). exists TradeAllowed.
    rewrite Hpos. apply Qltb_false in Hmin, Hbal.
    destruct (last_trade_time rm) as [last|].
    + rewrite (proj2 (Qgeb_ge _ _) (Hcool last eq_refl)). simpl.
      by rewrite Hmin, Hbal.
    + simpl. by rewrite Hmin, Hbal.
Qed.

Lemma can_trade_buy_allowed_witness :
  ∃ reason, can_trade paper_config BUY 50000 0 0 funded = Ok (true, reason).
Proof.
  apply (can_trade_buy_allowed paper_config 50000 0 0 funded).
  - left; reflexivity.
  - intros H; discriminate H.
  - repeat split; try discriminate.
Defined.

Lemma py_max_zero_nonneg x : 0 <= py_max 0 x.
Proof.
  unfold py_max. destruct (Qgtb x 0) eqn:E.
  - apply Qgtb_gt in E. by apply Qlt_le_weak.
  - apply Qle_refl.
Qed.

Lemma py_max_zero_le x y : x <= y → 0 <= y → py_max 0 x <= y.
Proof. intros Hx Hy. unfold py_max. by destruct (Qgtb x 0). Qed.

Lemma py_int_nonneg x : 0 <= x → (0 ≤ py_int x)%Z.
Proof.
  intros H. unfold py_int. apply Z.quot_pos; [|lia].
  unfold Qle in H. simpl in H. lia.
Qed.

Lemma py_int_le x z : 0 <= x → x <= inject_Z z → (py_int x ≤ z)%Z.
Proof.
  intros H0 Hz. unfold py_int.
  unfold Qle in H0, Hz. simpl in H0, Hz.
  rewrite Z.quot_div_nonneg by lia.
  apply Z.div_le_upper_bound; lia.
Qed.

(** X2: in paper and live mode, while less than the cooldown period has
    passed since the last trade, every signal at every price is rejected with
    the remaining whole seconds, which lie between 0 and the period (when
    the period is not negative and the clock has not gone back); this is so
    right after [open_position] and after a [close_position] that closed a
    position, which stamp the trade time. *)
Theorem cooldown_blocks_every_signal cfg signal price now now' rm last :
  trading_mode cfg = "paper" ∨ trading_mode cfg = "live" →
  last_trade_time rm = Some last →
  now - last < inject_Z (cooldown_period cfg) →
  can_trade cfg signal price now now' rm
    = Ok (false, CooldownActive (_get_cooldown_remaining cfg now' rm))
  ∧ (0 ≤ _get_cooldown_remaining cfg now' rm)%Z
  ∧ (last <= now' → (0 ≤ cooldown_period cfg)%Z →
     (_get_cooldown_remaining cfg now' rm ≤ cooldown_period cfg)%Z)
  ∧ (∀ entry size sl tp t_entry,
       last_trade_time (state (open_position entry size sl tp t_entry last rm))
         = Some last)
  ∧ (is_Some (current_position rm) →
     ∀ exit, last_trade_time (state (close_position exit last rm)) = Some last).
Proof.
  intros Hmode Hlast Hsoon. split; [|split; [|split; [|split]]].
  - unfold can_trade, _check_cooldown.
    rewrite (mode_trades_true _ Hmode), Hlast. simpl.
    by rewrite (proj2 (Qgeb_false _ _) Hsoon).
  - unfold _get_cooldown_remaining. rewrite Hlast.
    apply py_int_nonneg, py_max_zero_nonneg.
  - intros Hafter Hpos. unfold _get_cooldown_remaining. rewrite Hlast.
    assert (Hperiod : 0 <= inject_Z (cooldown_period cfg)).
    { unfold Qle. simpl. lia. }
    apply py_int_le; [apply py_max_zero_nonneg|].
    apply py_max_zero_le; [lra | exact Hperiod].
  - reflexivity.
  - intros [p Hp] exit. unfold close_position. by rewrite Hp.
Qed.

Lemma cooldown_blocks_every_signal_witness :
  can_trade paper_config SELL 49000 100 100 holding
    = Ok (false, CooldownActive (_get_cooldown_remaining paper_config 100 holding))
  ∧ (_get_cooldown_remaining paper_config 100%Q holding ≤ 300)%Z.
Proof.
  destruct (cooldown_blocks_every_signal paper_config SELL 49000 100 100 holding 0)
    as (Hreject & _ & Hbound & _).
  - left; reflexivity.
  - reflexivity.
  - reflexivity.
  - split; [exact Hreject|]. apply Hbound; discriminate.
Defined.

(** X3: the BUY record is linear in the signal strength: size, value, risk
    amount and potential profit at strength s are those at strength 1 times
    s, and the stop-loss and take-profit levels do not depend on it. *)
Theorem order_details_scale_with_strength cfg rm price strength d1 d :
  calculate_order_details cfg BUY price 1 rm = Ok d1 →
  calculate_order_details cfg BUY price strength rm = Ok d →
  ∃ size1 value1 sl tp risk1 profit1 size value risk profit,
    d1 = BuyDetails size1 value1 sl tp risk1 profit1
    ∧ d = BuyDetails size value sl tp risk profit
    ∧ size == size1 * strength
    ∧ value == value1 * strength
    ∧ risk == risk1 * strength
    ∧ profit == profit1 * strength.
Proof.
  unfold calculate_order_details, _calculate_position_size.
  destruct (Qeq_bool price 0); simpl; [discriminate|].
  intros [= <-] [= <-].
  eexists _, _, _, _, _, _, _, _, _, _.
  split; [reflexivity|]. split; [reflexivity|].
  repeat split; ring.
Qed.

Lemma order_details_scale_with_strength_witness :
  ∃ d1 d s1 s, calculate_order_details default_config BUY 50000 1 funded = Ok d1
    ∧ calculate_order_details default_config BUY 50000 (1 # 2) funded = Ok d
    ∧ sized d1 = Some s1 ∧ sized d = Some s ∧ s == s1 * (1 # 2).
Proof.
  destruct (order_details_scale_with_strength default_config funded 50000 (1 # 2)
              _ _ eq_refl eq_refl)
    as (size1 & value1 & sl & tp & risk1 & profit1 & size & value & risk & profit
        & H1 & H & Hsize & _).
  eexists _, _, size1, size. split; [reflexivity|]. split; [reflexivity|].
  rewrite H1, H. repeat split. exact Hsize.
Defined.

(** X4: at a positive price, with positive stop-loss and take-profit
    percentages, the levels of the BUY record bracket the price, stop_loss <
    price < take_profit; a position opened at that price with those levels
    gives no exit signal when updated at its entry price. *)
Theorem fresh_position_has_no_exit cfg rm price strength sz val sl tp risk profit :
  0 < price →
  0 < stop_loss_percentage cfg →
  0 < take_profit_percentage cfg →
  calculate_order_details cfg BUY price strength rm
    = Ok (BuyDetails sz val sl tp risk profit) →
  sl < price ∧ price < tp
  ∧ ∀ rm' t_entry t_trade,
      value (update_position price
               (state (open_position price sz sl tp t_entry t_trade rm'))) = None.
Proof.
  intros Hprice Hsl Htp.
  unfold calculate_order_details, _calculate_position_size.
  destruct (Qeq_bool price 0); simpl; [discriminate|].
  intros [= _ _ <- <- _ _].
  assert (Hlow : price * (1 - stop_loss_percentage cfg / 100) < price).
  { assert (0 < price * (stop_loss_percentage cfg / 100)).
    { apply Qmult_lt_0_compat; [done|]. apply Qlt_shift_div_l; [reflexivity|lra]. }
    lra. }
  assert (Hhigh : price < price * (1 + take_profit_percentage cfg / 100)).
  { assert (0 < price * (take_profit_percentage cfg / 100)).
    { apply Qmult_lt_0_compat; [done|]. apply Qlt_shift_div_l; [reflexivity|lra]. }
    lra. }
  split; [done|]. split; [done|].
  intros rm' t1 t2. unfold update_position. simpl.
  rewrite (proj2 (Qleb_false _ _) Hlow), (proj2 (Qgeb_false _ _) Hhigh).
  reflexivity.
Qed.

Lemma fresh_position_has_no_exit_witness :
  ∃ sz sl tp,
    sl < 50000 ∧ 50000 < tp
    ∧ value (update_position 50000
               (state (open_position 50000 sz sl tp 0 0 funded))) = None.
Proof.
  destruct (fresh_position_has_no_exit default_config funded 50000 1
              _ _ _ _ _ _ eq_refl eq_refl eq_refl eq_refl)
    as (Hlow & Hhigh & Hnone).
  eexists _, _, _. split; [exact Hlow|]. split; [exact Hhigh|].
  apply Hnone.
Defined.

(** X5: with a position open, the pnl quoted by the SELL record at a price,
    the unrealized pnl that [update_position] sets at that price (and that
    [get_metrics] then reports), and the amount by which [close_position] at
    that price raises the total PnL are the same number, size × (price −
    entry price). *)
Theorem quoted_unrealized_and_realized_pnl_agree cfg strength price now rm p :
  current_position rm = Some p →
  let pnl := size p * (price - entry_price p) in
  (∃ d, calculate_order_details cfg SELL price strength rm = Ok d
        ∧ sell_pnl d = Some pnl)
  ∧ unrealized_pnl <$> current_position (state (update_position price rm)) = Some pnl
  ∧ m_position_pnl (get_metrics (state (update_position price rm))) = pnl
  ∧ total_pnl (state (close_position price now rm)) = total_pnl rm + pnl
  ∧ last (trade_history (state (close_position price now rm)))
      = Some (TradeClose now price (size p) pnl).
Proof.
  intros Hp. simpl. split; [|split; [|split; [|split]]].
  - unfold calculate_order_details. rewrite Hp. by eexists.
  - unfold update_position. rewrite Hp. simpl.
    by destruct (Qleb price (stop_loss p)), (Qgeb price (take_profit p)).
  - unfold update_position. rewrite Hp. simpl.
    by destruct (Qleb price (stop_loss p)), (Qgeb price (take_profit p)).
  - unfold close_position. by rewrite Hp.
  - unfold close_position. rewrite Hp. simpl. apply last_snoc.
Qed.

Lemma quoted_unrealized_and_realized_pnl_agree_witness :
  total_pnl (state (close_position 51000 9 holding))
  = total_pnl holding + (2 # 1000) * (51000 - 50000).
Proof.
  apply (quoted_unrealized_and_realized_pnl_agree default_config 1 51000 9 holding
           _ eq_refl).
Defined.

(** *** Metrics *)

Lemma py_max_ge_l a b : a <= py_max a b.
Proof.
  unfold py_max. destruct (Qgtb b a) eqn:E.
  - apply Qgtb_gt in E. by apply Qlt_le_weak.
  - apply Qle_refl.
Qed.

Lemma _update_metrics_max_drawdown rm :
  max_drawdown rm <= max_drawdown (_update_metrics rm).
Proof.
  unfold _update_metrics. simpl.
  destruct (Qgtb (peak_balance rm) 0); [apply py_max_ge_l | apply Qle_refl].
Qed.

Lemma update_position_state_fields price rm :
  balance (state (update_position price rm)) = balance rm
  ∧ peak_balance (state (update_position price rm)) = peak_balance rm
  ∧ max_drawdown (state (update_position price rm)) = max_drawdown rm
  ∧ win_rate (state (update_position price rm)) = win_rate rm
  ∧ trade_history (state (update_position price rm)) = trade_history rm.
Proof.
  unfold update_position. destruct (current_position rm) as [p|]; [|done].
  simpl. by destruct (Qleb price (stop_loss p)), (Qgeb price (take_profit p)).
Qed.

Lemma call_max_drawdown c rm : max_drawdown rm <= max_drawdown (call c rm).
Proof.
  destruct c; simpl; try apply Qle_refl.
  - unfold close_position. destruct (current_position rm); [|apply Qle_refl].
    simpl. destruct (Qgtb _ 0); [apply py_max_ge_l | apply Qle_refl].
  - destruct (update_position_state_fields current_price rm) as (_ & _ & -> & _).
    apply Qle_refl.
Qed.

Lemma call_peak_balance c rm :
  is_set_balance c = false → peak_balance rm <= peak_balance (call c rm).
Proof.
  destruct c; simpl; [discriminate| | |]; intros _.
  - apply Qle_refl.
  - unfold close_position. destruct (current_position rm) as [p|]; [|apply Qle_refl].
    simpl. destruct (Qgtb _ (peak_balance rm)) eqn:E; [|apply Qle_refl].
    apply Qgtb_gt in E. by apply Qlt_le_weak.
  - destruct (update_position_state_fields current_price rm) as (_ & -> & _).
    apply Qle_refl.
Qed.

Definition sound_metrics (rm : RiskManager) : Prop :=
  balance rm <= peak_balance rm ∧ 0 <= max_drawdown rm.

Lemma call_sound_metrics c rm : sound_metrics rm → sound_metrics (call c rm).
Proof.
  intros [Hpeak Hdd]. split.
  - destruct c; simpl.
    + apply Qle_refl.
    + exact Hpeak.
    + unfold close_position. destruct (current_position rm) as [p|]; [|exact Hpeak].
      simpl. destruct (Qgtb _ (peak_balance rm)) eqn:E; [apply Qle_refl|].
      unfold Qgtb in E. apply negb_false_iff, Qle_bool_iff in E. exact E.
    + destruct (update_position_state_fields current_price rm) as (-> & -> & _).
      exact Hpeak.
  - eapply Qle_trans; [exact Hdd | apply call_max_drawdown].
Qed.

Lemma calls_snoc cs c rm : calls (cs ++ [c]) rm = call c (calls cs rm).
Proof. unfold calls. by rewrite foldl_app. Qed.

(** X6: the metrics never fall back: no call lowers the maximum drawdown, no
    call other than [set_balance] lowers the peak balance, and after any
    sequence of calls on a new manager the balance is at most the peak balance
    and the maximum drawdown is not negative. *)
Theorem drawdown_and_peak_never_fall :
  (∀ c rm, max_drawdown rm <= max_drawdown (call c rm))
  ∧ (∀ c rm, is_set_balance c = false →
       peak_balance rm <= peak_balance (call c rm))
  ∧ (∀ cs, balance (calls cs init) <= peak_balance (calls cs init)
           ∧ 0 <= max_drawdown (calls cs init)).
Proof.
  split; [exact call_max_drawdown|]. split; [exact call_peak_balance|].
  intros cs. change (sound_metrics (calls cs init)).
  induction cs as [|c cs IH] using rev_ind.
  - split; apply Qle_refl.
  - rewrite calls_snoc. by apply call_sound_metrics.
Qed.

Lemma drawdown_and_peak_never_fall_witness :
  peak_balance funded <= peak_balance (call (CallClose 49000 1) (call (CallOpen 50000 (2 # 1000) 49000 52500 0 0) funded))
  ∧ 0 < max_drawdown (call (CallClose 49000 1) (call (CallOpen 50000 (2 # 1000) 49000 52500 0 0) funded)).
Proof.
  split.
  - eapply Qle_trans;
      [|apply (proj1 (proj2 drawdown_and_peak_never_fall)); reflexivity].
    apply (proj1 (proj2 drawdown_and_peak_never_fall)); reflexivity.
  - reflexivity.
Defined.

Lemma closes_partition h :
  (length (List.filter is_winning_close h) + length (List.filter is_losing_close h))%nat
  = length (List.filter is_close h).
Proof.
  induction h as [|t h IH]; [done|]. simpl.
  destruct t as [ts pr sz v | ts pr sz pnl]; simpl; [exact IH|].
  unfold Qgtb, Qleb. destruct (Qle_bool pnl 0); simpl; lia.
Qed.

Lemma filter_snoc {A} (f : A → bool) l x :
  List.filter f (l ++ [x]) = (List.filter f l ++ if f x then [x] else [])%list.
Proof. rewrite List.filter_app. simpl. by destruct (f x). Qed.

(** The win rate agrees with the history: 0 while nothing was closed, then
    the share of closes with a positive pnl. *)
Definition win_rate_agrees (rm : RiskManager) : Prop :=
  let wins := length (List.filter is_winning_close (trade_history rm)) in
  let closes := length (List.filter is_close (trade_history rm)) in
  win_rate rm =
    if (0 <? closes)%nat
    then inject_Z (Z.of_nat wins) / inject_Z (Z.of_nat closes)
    else 0.

Lemma call_win_rate_agrees c rm : win_rate_agrees rm → win_rate_agrees (call c rm).
Proof.
  unfold win_rate_agrees. intros H. destruct c; simpl.
  - exact H.
  - rewrite !filter_snoc. simpl. by rewrite !app_nil_r.
  - unfold close_position. destruct (current_position rm) as [p|]; [|exact H].
    clear H. simpl. rewrite closes_partition.
    set (h := (trade_history rm ++ _)%list).
    assert (E : (0 <? length (List.filter is_close h))%nat = true).
    { subst h. rewrite filter_snoc, length_app. simpl. apply Nat.ltb_lt. lia. }
    by rewrite E.
  - by destruct (update_position_state_fields current_price rm)
      as (_ & _ & _ & -> & ->).
Qed.

Lemma share_bounds (w c : nat) :
  (w ≤ c)%nat → (0 < c)%nat →
  0 <= inject_Z (Z.of_nat w) / inject_Z (Z.of_nat c)
  ∧ inject_Z (Z.of_nat w) / inject_Z (Z.of_nat c) <= 1.
Proof.
  intros Hwc Hc.
  assert (Hpos : 0 < inject_Z (Z.of_nat c)).
  { unfold Qlt. simpl. lia. }
  split.
  - apply Qle_shift_div_l; [exact Hpos|]. unfold Qle. simpl. lia.
  - apply Qle_shift_div_r; [exact Hpos|]. unfold Qle. simpl. lia.
Qed.

(** X7: after any sequence of calls on a new manager the win rate is 0 if no
    position has been closed yet, and otherwise the number of close trades
    with a positive pnl divided by the number of close trades; it lies
    between 0 and 1, and a close with pnl 0 counts as a loss. *)
Theorem win_rate_is_share_of_winning_closes cs :
  let rm := calls cs init in
  let wins := length (List.filter is_winning_close (trade_history rm)) in
  let closes := length (List.filter is_close (trade_history rm)) in
  win_rate rm = (if (0 <? closes)%nat
                 then inject_Z (Z.of_nat wins) / inject_Z (Z.of_nat closes)
                 else 0)
  ∧ 0 <= win_rate rm ∧ win_rate rm <= 1
  ∧ (wins + length (List.filter is_losing_close (trade_history rm)))%nat = closes
  ∧ is_winning_close (TradeClose 0 0 0 0) = false
  ∧ is_losing_close (TradeClose 0 0 0 0) = true.
Proof.
  simpl.
  assert (Hagree : win_rate_agrees (calls cs init)).
  { induction cs as [|c cs IH] using rev_ind; [reflexivity|].
    rewrite calls_snoc. by apply call_win_rate_agrees. }
  unfold win_rate_agrees in Hagree.
  pose proof (closes_partition (trade_history (calls cs init))) as Hpart.
  split; [exact Hagree|]. rewrite Hagree.
  destruct (0 <? _)%nat eqn:E.
  - apply Nat.ltb_lt in E.
    destruct (share_bounds _ _ (Nat.le_trans _ _ _ (Nat.le_add_r _ _)
                                  (Nat.eq_le_incl _ _ Hpart)) E) as [H0 H1].
    repeat split; done.
  - repeat split; try done.
Qed.

(** X8: each open/close cycle adds one to the [total_trades] of
    [get_metrics] and two entries to the trade history, and after a cycle no
    position is reported open. *)
Theorem cycles_are_counted cs rm :
  m_total_trades (get_metrics (run_cycles cs rm))
    = (m_total_trades (get_metrics rm) + length cs)%nat
  ∧ length (trade_history (run_cycles cs rm))
    = (length (trade_history rm) + 2 * length cs)%nat
  ∧ (cs ≠ [] → m_open_position (get_metrics (run_cycles cs rm)) = false
               ∧ m_position_pnl (get_metrics (run_cycles cs rm)) = 0).
Proof.
  revert rm. induction cs as [|c cs IH] using rev_ind; intros rm.
  - simpl. split; [lia|]. split; [lia|]. done.
  - unfold run_cycles in *. rewrite foldl_app. simpl.
    destruct (IH rm) as (Htrades & Hlen & _).
    rewrite !length_app. simpl.
    split; [|split].
    + unfold get_metrics in *. simpl in *.
      rewrite !filter_snoc, !length_app. simpl. lia.
    + simpl. rewrite ?length_app. simpl. lia.
    + intros _. split; reflexivity.
Qed.

Lemma cycles_are_counted_witness :
  m_total_trades (get_metrics (run_cycles [scenario_d; scenario_d] funded)) = 2%nat
  ∧ m_open_position (get_metrics (run_cycles [scenario_d; scenario_d] funded)) = false.
Proof.
  destruct (cycles_are_counted [scenario_d; scenario_d] funded)
    as (Htrades & _ & Hflat).
  split; [exact Htrades|]. apply Hflat. discriminate.
Defined.

End RiskLaws.

(** ** The Signal Processor: strength, whipsaw guard and history *)

Module SignalLaws.

Import Strategy.
Local Open Scope Q_scope.

(** *** Signal strength *)

Lemma np_div_nonneg_num x y :
  0 <= x →
  np_div x y = NpNaN ∨ np_div x y = NpInf true
  ∨ (¬ y == 0 ∧ np_div x y = NpFin (x / y)).
Proof.
  intros Hx. unfold np_div. destruct (Qeq_bool y 0) eqn:Ey.
  - destruct (Qeq_bool x 0) eqn:Ex; [by left|]. right; left.
    f_equal. apply Qltb_lt.
    destruct (Qlt_le_dec 0 x) as [|Hle]; [done|].
    assert (x == 0) as Hz by (apply Qle_antisym; done).
    apply Qeq_bool_iff in Hz. congruence.
  - right; right. split; [|done]. intros H. apply Qeq_bool_iff in H. congruence.
Qed.

Lemma min_one_mean a b :
  a = NpNaN ∨ a = NpInf true ∨ (∃ x, a = NpFin x) →
  ∃ s, min_one (np_mean a b) = NpFin s ∧ s <= 1
       ∧ (∀ x, a = NpFin x → 0 <= x → 0 <= b → 0 <= s)
       ∧ (∀ x, a = NpFin x → x == 0 → b == 0 → s == 0).
Proof.
  intros [-> | [-> | [x ->]]]; simpl.
  - exists 1. split; [done|]. split; [apply Qle_refl|].
    split; intros; discriminate.
  - exists 1. split; [done|]. split; [apply Qle_refl|].
    split; intros; discriminate.
  - destruct (Qltb ((x + b) / 2) 1) eqn:E.
    + apply Qltb_lt in E. exists ((x + b) / 2). split; [done|].
      split; [by apply Qlt_le_weak|]. split.
      * intros ? [= <-] Hx Hb. apply Qle_shift_div_l; [reflexivity|]. lra.
      * intros ? [= <-] Hx Hb. rewrite Hx, Hb. reflexivity.
    + exists 1. split; [done|]. split; [apply Qle_refl|]. split.
      * intros. discriminate.
      * intros ? [= <-] Hx Hb. unfold Qltb in E.
        apply negb_false_iff, Qle_bool_iff in E.
        rewrite Hx, Hb in E. exfalso. revert E. apply Qlt_not_le. reflexivity.
Qed.

Lemma bb_strength_nonneg (b : Q) :
  0 <= (if Qleb b (1 # 10) then ((1 # 10) - b) / (1 # 10)
        else if Qgeb b (9 # 10) then (b - (9 # 10)) / (1 # 10) else 0).
Proof.
  destruct (Qleb b (1 # 10)) eqn:E1.
  - apply Qleb_le in E1. apply Qle_shift_div_l; [reflexivity|]. lra.
  - destruct (Qgeb b (9 # 10)) eqn:E2; [|apply Qle_refl].
    apply Qgeb_ge in E2. apply Qle_shift_div_l; [reflexivity|]. lra.
Qed.

(** X9: on a snapshot holding an RSI and a band position, the signal
    strength is a finite number, at most 1, for every configuration; with
    thresholds 0 ≤ oversold and overbought ≤ 100 it is not negative; and it is
    0 when the RSI lies strictly between the thresholds and the band position
    strictly between 0.1 and 0.9. *)
Theorem signal_strength_bounds cfg ind rsi bb_position :
  ind !! "rsi" = Some rsi →
  ind !! "bb_position" = Some bb_position →
  ∃ s, get_signal_strength cfg ind = Ok (NpFin s)
    ∧ s <= 1
    ∧ ((0 ≤ rsi_oversold cfg)%Z → (rsi_overbought cfg ≤ 100)%Z → 0 <= s)
    ∧ (flt (fz (rsi_oversold cfg)) rsi = true →
       flt rsi (fz (rsi_overbought cfg)) = true →
       flt (Fin (1 # 10)) bb_position = true →
       flt bb_position (Fin (9 # 10)) = true → s == 0).
Proof.
  intros Hrsi Hbb. unfold get_signal_strength, getitem. rewrite Hrsi, Hbb. simpl.
  set (oversold := inject_Z (rsi_oversold cfg)).
  set (overbought := inject_Z (rsi_overbought cfg)).
  set (rs := match rsi with
             | Fin r =>
                 if Qleb r oversold then np_div (oversold - r) oversold
                 else if Qgeb r overbought
                      then np_div (r - overbought) (100 - overbought)
                      else NpFin 0
             | NaN => NpFin 0
             end).
  set (bs := match bb_position with
             | Fin b =>
                 if Qleb b (1 # 10) then ((1 # 10) - b) / (1 # 10)
                 else if Qgeb b (9 # 10) then (b - (9 # 10)) / (1 # 10) else 0
             | NaN => 0
             end).
  assert (Hbs : 0 <= bs).
  { subst bs. destruct bb_position; [apply bb_strength_nonneg | apply Qle_refl]. }
  assert (Hrs : rs = NpNaN ∨ rs = NpInf true ∨ ∃ x, rs = NpFin x
                ∧ ((0 ≤ rsi_oversold cfg)%Z → (rsi_overbought cfg ≤ 100)%Z → 0 <= x)).
  { subst rs. destruct rsi as [r|]; [|right; right; exists 0; split; [done|intros; apply Qle_refl]].
    destruct (Qleb r oversold) eqn:E1.
    - apply Qleb_le in E1.
      destruct (np_div_nonneg_num (oversold - r) oversold) as [-> | [-> | [Hne ->]]];
        [lra | by left | by right; left |].
      right; right. eexists. split; [done|]. intros Hlo _.
      assert (0 < oversold).
      { assert (0 <= oversold) by (subst oversold; unfold Qle; simpl; lia).
        destruct (Qlt_le_dec 0 oversold) as [|Hle]; [done|].
        exfalso. apply Hne. by apply Qle_antisym. }
      apply Qle_shift_div_l; [done|]. lra.
    - destruct (Qgeb r overbought) eqn:E2;
        [|right; right; exists 0; split; [done|intros; apply Qle_refl]].
      apply Qgeb_ge in E2.
      destruct (np_div_nonneg_num (r - overbought) (100 - overbought))
        as [-> | [-> | [Hne ->]]]; [lra | by left | by right; left |].
      right; right. eexists. split; [done|]. intros _ Hhi.
      assert (0 < 100 - overbought).
      { assert (overbought <= 100) by (subst overbought; unfold Qle; simpl; lia).
        destruct (Qlt_le_dec 0 (100 - overbought)) as [|Hle]; [done|].
        exfalso. apply Hne. apply Qle_antisym; lra. }
      apply Qle_shift_div_l; [done|]. lra. }
  destruct (min_one_mean rs bs) as (s & Hs & Hle & Hnonneg & Hzero).
  { destruct Hrs as [? | [? | (x & ? & _)]]; eauto. }
  exists s. split; [by rewrite Hs|]. split; [exact Hle|]. split.
  - intros Hlo Hhi. destruct Hrs as [-> | [-> | (x & -> & Hx)]].
    + simpl in Hs. injection Hs as <-. discriminate.
    + simpl in Hs. injection Hs as <-. discriminate.
    + by eapply Hnonneg; [reflexivity | apply Hx | exact Hbs].
  - intros H1 H2 H3 H4.
    destruct rsi as [r|]; [|discriminate].
    destruct bb_position as [b|]; [|discriminate].
    simpl in H1, H2, H3, H4.
    apply Qltb_lt in H1, H2, H3, H4.
    apply (Hzero 0).
    + subst rs. fold oversold in H1. fold overbought in H2.
      rewrite (proj2 (Qleb_false _ _) H1), (proj2 (Qgeb_false _ _) H2). done.
    + reflexivity.
    + subst bs.
      rewrite (proj2 (Qleb_false _ _) H3), (proj2 (Qgeb_false _ _) H4). reflexivity.
Qed.

Lemma signal_strength_bounds_witness :
  ∃ s, get_signal_strength default_config
         (scenario_snapshot (Fin (3 # 2)) (Fin 51000) (Fin 0)) = Ok (NpFin s)
       ∧ s <= 1 ∧ 0 <= s.
Proof.
  destruct (signal_strength_bounds default_config
              (scenario_snapshot (Fin (3 # 2)) (Fin 51000) (Fin 0))
              (Fin 25) (Fin 0) eq_refl eq_refl)
    as (s & Hs & Hle & Hnonneg & _).
  exists s. split; [exact Hs|]. split; [exact Hle|].
  apply Hnonneg; discriminate.
Defined.

Lemma signal_strength_neutral_witness :
  ∃ s, get_signal_strength default_config scenario_flat = Ok (NpFin s) ∧ s == 0.
Proof.
  destruct (signal_strength_bounds default_config scenario_flat
              (Fin 50) (Fin ((50000 - 49000) / (51000 - 49000))) eq_refl eq_refl)
    as (s & Hs & _ & _ & Hzero).
  exists s. split; [exact Hs|]. apply Hzero; reflexivity.
Defined.

(** *** The whipsaw guard *)

Definition not_hold (h : HistoryEntry) : bool := negb (signal_eqb (signal h) HOLD).

Lemma _should_filter_signal_last sig sp :
  _should_filter_signal sig sp
  = match last (recent_signals sp) with
    | Some h => opposite sig (signal h)
    | None => false
    end.
Proof.
  unfold _should_filter_signal, recent_signals.
  destruct (signal_history sp) as [|e l] eqn:Hh; [reflexivity|].
  rewrite bool_decide_eq_false_2 by discriminate. simpl orb.
  destruct sig; simpl.
  - destruct (last _) as [h|]; [|done]. by destruct (signal h).
  - destruct (last _) as [h|]; [|done]. by destruct (signal h).
  - by destruct (last _).
Qed.

Lemma recent_signals_snoc l h last_signal :
  not_hold h = true →
  last (recent_signals {| last_signal := last_signal;
                          signal_history := l ++ [h] |}) = Some h.
Proof.
  intros Hh. unfold recent_signals. simpl.
  rewrite length_app. simpl.
  rewrite drop_app_le by lia.
  rewrite List.filter_app. simpl. fold (not_hold h). rewrite Hh.
  apply last_snoc.
Qed.

Lemma _generate_signal_result cfg ind sp sig :
  _generate_signal cfg ind sp = Ok sig →
  ∃ s, sig = (if _should_filter_signal s sp then HOLD else s).
Proof.
  unfold _generate_signal, getitem.
  destruct (ind !! "rsi"); simpl; [|discriminate].
  destruct (ind !! "close"); simpl; [|discriminate].
  destruct (ind !! "bb_upper"); simpl; [|discriminate].
  destruct (ind !! "bb_lower"); simpl; [|discriminate].
  destruct (ind !! "bb_position"); simpl; [|discriminate].
  destruct (ind !! "volume_ratio"); simpl; [|discriminate].
  intros [= <-]. by eexists.
Qed.

Lemma _generate_signal_not_opposite cfg ind sp sig h :
  _generate_signal cfg ind sp = Ok sig →
  last (recent_signals sp) = Some h →
  opposite sig (signal h) = false.
Proof.
  intros Hgen Hlast.
  destruct (_generate_signal_result _ _ _ _ Hgen) as [s ->].
  destruct (_should_filter_signal s sp) eqn:E; [reflexivity|].
  by rewrite _should_filter_signal_last, Hlast in E.
Qed.

Lemma _generate_signal_not_opposite_last cfg ind sp sig h :
  _generate_signal cfg ind sp = Ok sig →
  last (signal_history sp) = Some h →
  opposite sig (signal h) = false.
Proof.
  intros Hgen Hlast.
  destruct (decide (signal h = HOLD)) as [Hs|Hs]; [rewrite Hs; by destruct sig|].
  apply last_Some in Hlast as [l Hl]. destruct sp as [ls hist]. simpl in Hl.
  subst hist.
  apply (_generate_signal_not_opposite cfg ind _ sig h Hgen).
  apply recent_signals_snoc. unfold not_hold, signal_eqb.
  by rewrite bool_decide_eq_false_2.
Qed.

(** X10: [_generate_signal] never reverses the latest decision: its result is
    never the opposite of the most recent BUY or SELL among the last five
    records of the history; in particular, right after a BUY it is never SELL
    and right after a SELL never BUY. *)
Theorem signal_never_reverses cfg ind sp sig :
  _generate_signal cfg ind sp = Ok sig →
  (∀ h, last (recent_signals sp) = Some h → opposite sig (signal h) = false)
  ∧ (∀ h, last (signal_history sp) = Some h → opposite sig (signal h) = false).
Proof.
  intros Hgen. split.
  - intros h. exact (_generate_signal_not_opposite cfg ind sp sig h Hgen).
  - intros h. exact (_generate_signal_not_opposite_last cfg ind sp sig h Hgen).
Qed.

Definition after_sell : SignalProcessor :=
  {| last_signal := Some SELL;
     signal_history :=
       [ {| entry_timestamp := 0; signal := SELL; indicators := ∅ |} ] |}.

Lemma signal_never_reverses_witness :
  ∃ sig, _generate_signal default_config
           (scenario_snapshot (Fin (3 # 2)) (Fin 51000) (Fin 0)) after_sell = Ok sig
         ∧ opposite sig SELL = false.
Proof.
  eexists. split; [reflexivity|].
  apply (proj2 (signal_never_reverses default_config
                  (scenario_snapshot (Fin (3 # 2)) (Fin 51000) (Fin 0))
                  after_sell _ eq_refl)
           {| entry_timestamp := 0; signal := SELL; indicators := ∅ |}).
  reflexivity.
Defined.

(** X11: the guard looks back exactly five records: once the last five
    records are HOLD nothing is filtered, whatever came before them, while a
    SELL followed by only four HOLD records still filters a BUY (and a BUY a
    SELL). *)
Theorem whipsaw_guard_expires older holds e sig ls :
  Forall (λ h, signal h = HOLD) holds →
  (length holds = 5%nat →
     _should_filter_signal sig
       {| last_signal := ls; signal_history := older ++ holds |} = false)
  ∧ (length holds = 4%nat → opposite sig (signal e) = true →
     _should_filter_signal sig
       {| last_signal := ls; signal_history := older ++ e :: holds |} = true).
Proof.
  intros Hholds.
  assert (Hnone : List.filter not_hold holds = []).
  { induction Hholds as [|h l Hh _ IH]; [done|]. simpl.
    unfold not_hold at 1. rewrite Hh. exact IH. }
  split.
  - intros Hlen. rewrite _should_filter_signal_last.
    unfold recent_signals. simpl. rewrite length_app, Hlen.
    replace (length older + 5 - 5)%nat with (length older + 0)%nat by lia.
    rewrite drop_app_add, drop_0. fold not_hold.
    by rewrite Hnone.
  - intros Hlen Hopp. rewrite _should_filter_signal_last.
    unfold recent_signals. simpl. rewrite length_app. simpl. rewrite Hlen.
    replace (length older + 5 - 5)%nat with (length older + 0)%nat by lia.
    rewrite drop_app_add, drop_0. fold not_hold. simpl.
    rewrite Hnone.
    assert (signal e ≠ HOLD) as Hne by (intros Hs; rewrite Hs in Hopp; by destruct sig).
    unfold not_hold, signal_eqb. rewrite bool_decide_eq_false_2 by done.
    simpl. exact Hopp.
Qed.

Lemma whipsaw_guard_expires_witness :
  _should_filter_signal BUY
    {| last_signal := Some HOLD;
       signal_history := signal_history after_sell ++ (hold_entry <$> [1; 2; 3; 4; 5]) |}
    = false
  ∧ _should_filter_signal BUY
      {| last_signal := Some HOLD;
         signal_history := [] ++ {| entry_timestamp := 0; signal := SELL; indicators := ∅ |}
                                  :: (hold_entry <$> [1; 2; 3; 4]) |}
    = true.
Proof.
  split.
  - apply (whipsaw_guard_expires (signal_history after_sell)
             (hold_entry <$> [1; 2; 3; 4; 5])
             (hold_entry 0) BUY (Some HOLD)); [|reflexivity].
    repeat constructor.
  - apply (whipsaw_guard_expires [] (hold_entry <$> [1; 2; 3; 4])
             {| entry_timestamp := 0; signal := SELL; indicators := ∅ |}
             BUY (Some HOLD)); [|reflexivity|reflexivity].
    repeat constructor.
Defined.

(** *** The rules *)

(** X12: a BUY is returned only when the RSI is below the oversold threshold,
    or the close is at or below the lower band with the RSI below 40; a SELL
    only when the RSI is above the overbought threshold, or the close is at
    or above the upper band with the RSI above 60; neither is returned on a
    volume ratio below 0.5, and a NaN RSI always gives HOLD. *)
Theorem signals_need_their_conditions cfg ind sp sig :
  _generate_signal cfg ind sp = Ok sig →
  ∃ rsi close bb_upper bb_lower volume_ratio,
    ind !! "rsi" = Some rsi ∧ ind !! "close" = Some close
    ∧ ind !! "bb_upper" = Some bb_upper ∧ ind !! "bb_lower" = Some bb_lower
    ∧ ind !! "volume_ratio" = Some volume_ratio
    ∧ (sig = BUY →
         (flt rsi (fz (rsi_oversold cfg)) = true
          ∨ (fle close bb_lower = true ∧ flt rsi (fz 40) = true))
         ∧ flt volume_ratio (Fin (1 # 2)) = false)
    ∧ (sig = SELL →
         (fgt rsi (fz (rsi_overbought cfg)) = true
          ∨ (fge close bb_upper = true ∧ fgt rsi (fz 60) = true))
         ∧ flt volume_ratio (Fin (1 # 2)) = false)
    ∧ (rsi = NaN → sig = HOLD).
Proof.
  unfold _generate_signal, getitem.
  destruct (ind !! "rsi") as [rsi|]; simpl; [|discriminate].
  destruct (ind !! "close") as [close|]; simpl; [|discriminate].
  destruct (ind !! "bb_upper") as [up|]; simpl; [|discriminate].
  destruct (ind !! "bb_lower") as [lo|]; simpl; [|discriminate].
  destruct (ind !! "bb_position") as [pos|]; simpl; [|discriminate].
  destruct (ind !! "volume_ratio") as [vr|]; simpl; [|discriminate].
  intros [= <-]. exists rsi, close, up, lo, vr.
  do 5 (split; [reflexivity|]).
  split; [|split].
  - destruct (flt rsi (fz (rsi_oversold cfg))), (fle close lo),
      (flt pos (Fin (3 # 10))), (flt rsi (fz 40)),
      (fgt rsi (fz (rsi_overbought cfg))), (fge close up),
      (fgt pos (Fin (7 # 10))), (fgt rsi (fz 60)),
      (flt vr (Fin (1 # 2))); simpl;
      repeat match goal with
             | |- context [_should_filter_signal ?s sp] =>
                 destruct (_should_filter_signal s sp)
             end;
      intros; try discriminate; auto.
  - destruct (flt rsi (fz (rsi_oversold cfg))), (fle close lo),
      (flt pos (Fin (3 # 10))), (flt rsi (fz 40)),
      (fgt rsi (fz (rsi_overbought cfg))), (fge close up),
      (fgt pos (Fin (7 # 10))), (fgt rsi (fz 60)),
      (flt vr (Fin (1 # 2))); simpl;
      repeat match goal with
             | |- context [_should_filter_signal ?s sp] =>
                 destruct (_should_filter_signal s sp)
             end;
      intros; try discriminate; auto.
  - intros ->. simpl. rewrite !andb_false_r. simpl.
    by rewrite SignalFacts._should_filter_signal_hold.
Qed.

Lemma signals_need_their_conditions_witness :
  flt (Fin 25) (fz (rsi_oversold default_config)) = true
  ∨ (fle (Fin 49000) (Fin 49000) = true ∧ flt (Fin 25) (fz 40) = true).
Proof.
  destruct (signals_need_their_conditions default_config
              (scenario_snapshot (Fin (3 # 2)) (Fin 51000) (Fin 0)) init BUY eq_refl)
    as (rsi & close & up & lo & vr & H1 & H2 & H3 & H4 & H5 & Hbuy & _).
  injection H1 as <-. injection H2 as <-. injection H4 as <-.
  apply Hbuy. reflexivity.
Defined.

(** *** The history that [process] builds *)

Lemma no_reversal_snoc l x :
  no_reversal (l ++ [x])
  = no_reversal l && match last l with
                     | Some y => negb (opposite y x)
                     | None => true
                     end.
Proof.
  induction l as [|a l IH]; [reflexivity|].
  destruct l as [|b l].
  - simpl. by rewrite andb_true_r.
  - change (no_reversal ((a :: b :: l) ++ [x]))
      with (negb (opposite a b) && no_reversal ((b :: l) ++ [x])).
    rewrite IH. simpl. by rewrite andb_assoc.
Qed.

Lemma opposite_sym a b : opposite a b = opposite b a.
Proof. by destruct a, b. Qed.

Lemma result_bind_Ok {A B} (r : result A) (k : A → result B) (b : B) :
  (r ≫= k) = Ok b → ∃ a, r = Ok a ∧ k a = Ok b.
Proof. destruct r as [a|e]; simpl; [eauto | discriminate]. Qed.

(** What holds of a processor that [process] has built. *)
Definition tidy (sp : SignalProcessor) : Prop :=
  no_reversal (signal <$> signal_history sp) = true
  ∧ last_signal sp = signal <$> last (signal_history sp).

Section Library.

Variable ta_rsi : list Q → Z → result pyfloat.
Variable ta_bollinger_hband : list Q → Z → Q → result pyfloat.
Variable ta_bollinger_mavg : list Q → Z → Q → result pyfloat.
Variable ta_bollinger_lband : list Q → Z → Q → result pyfloat.
Variable pd_rolling_mean : list Q → Z → result pyfloat.

Local Abbreviation calculate :=
  (_calculate_indicators ta_rsi ta_bollinger_hband ta_bollinger_mavg
     ta_bollinger_lband pd_rolling_mean).
Local Abbreviation run_process :=
  (process ta_rsi ta_bollinger_hband ta_bollinger_mavg ta_bollinger_lband
     pd_rolling_mean).

Lemma process_tidy cfg candles sp out sp' :
  run_process cfg candles sp = Ok (out, sp') → tidy sp → tidy sp'.
Proof.
  unfold process. destruct (_ <? _)%Z.
  - by intros [= _ <-].
  - intros H [Hrev Hlast].
    apply result_bind_Ok in H as (ind & _ & H).
    apply result_bind_Ok in H as (sig & Hsig & H).
    apply result_bind_Ok in H as (ts & _ & H).
    injection H as _ <-. split; simpl.
    + rewrite fmap_app. simpl. rewrite no_reversal_snoc, Hrev. simpl.
      rewrite fmap_last.
      destruct (last (signal_history sp)) as [h|] eqn:Hh; [|reflexivity].
      simpl. rewrite opposite_sym.
      by rewrite (_generate_signal_not_opposite_last cfg ind sp sig h Hsig Hh).
    + by rewrite last_snoc.
Qed.

(** X13: in the processor that any run of [process] calls builds from a new
    one, whatever the candles and the configuration, no record of the
    history is a BUY right after a SELL or a SELL right after a BUY, and
    [last_signal] is the signal of the last record. *)
Theorem history_has_no_reversal cfg inputs :
  let sp := feed (run_process cfg) inputs init in
  no_reversal (signal <$> signal_history sp) = true
  ∧ last_signal sp = signal <$> last (signal_history sp).
Proof.
  simpl. change (tidy (feed (run_process cfg) inputs init)).
  induction inputs as [|candles inputs IH] using rev_ind.
  - by split.
  - unfold feed in *. rewrite foldl_app. simpl.
    destruct (run_process cfg candles _) as [[out sp']|x] eqn:E; [|exact IH].
    by eapply process_tidy.
Qed.

(** X14: a computed snapshot has the nine indicator keys and nothing else;
    its band position is 0.5 when the two bands coincide, and otherwise
    (close − lower) / (upper − lower), so 0 on the lower band and 1 on the
    upper one; its volume ratio is 1 when the average volume is NaN, zero or
    negative. *)
Theorem indicator_edge_values cfg candles ind :
  calculate cfg candles = Ok ind →
  dom ind = ({["rsi"; "bb_upper"; "bb_middle"; "bb_lower"; "bb_position";
               "close"; "volume"; "volume_ratio"; "avg_volume"]} : gset string)
  ∧ ∃ close, ind !! "close" = Some (Fin close)
    ∧ (∀ upper lower,
         ind !! "bb_upper" = Some (Fin upper) →
         ind !! "bb_lower" = Some (Fin lower) →
         (upper == lower → ind !! "bb_position" = Some (Fin (1 # 2)))
         ∧ (¬ upper == lower →
            ind !! "bb_position" = Some (Fin ((close - lower) / (upper - lower)))
            ∧ (close == lower → (close - lower) / (upper - lower) == 0)
            ∧ (close == upper → (close - lower) / (upper - lower) == 1)))
    ∧ (∀ avg, ind !! "avg_volume" = Some avg → fgt avg (Fin 0) = false →
         ind !! "volume_ratio" = Some (Fin 1)).
Proof.
  unfold _calculate_indicators. intros H.
  apply result_bind_Ok in H as (rsi & _ & H).
  apply result_bind_Ok in H as (up & _ & H).
  apply result_bind_Ok in H as (mid & _ & H).
  apply result_bind_Ok in H as (lo & _ & H).
  apply result_bind_Ok in H as (c & Hc & H).
  apply result_bind_Ok in H as (v & _ & H).
  apply result_bind_Ok in H as (avg & _ & H).
  injection H as <-. split.
  - rewrite !dom_insert_L, dom_empty_L. set_solver.
  - unfold iloc_last in Hc. destruct (last _) as [close|]; [|discriminate].
    injection Hc as <-. exists close. split; [by simplify_map_eq|]. split.
    + intros upper lower Hup Hlo. simplify_map_eq. split.
      * intros Heq. apply Qeq_bool_iff in Heq. by rewrite Heq.
      * intros Hne. rewrite (RiskLaws.Qeq_bool_false _ _ Hne). simpl.
        split; [done|].
        assert (¬ upper - lower == 0) by (intros E; apply Hne; lra).
        split; intros Heq.
        -- rewrite Heq. field. done.
        -- rewrite Heq. field. done.
    + intros avg' Havg Hlow. simplify_map_eq. by rewrite Hlow.
Qed.

End Library.

Lemma indicator_edge_values_witness :
  scenario_flat !! "bb_position"
  = Some (Fin ((50000 - 49000) / (51000 - 49000))).
Proof.
  destruct (indicator_edge_values flat_rsi flat_hband flat_mavg flat_lband flat_mean
              default_config (flat_candles 20) scenario_flat)
    as (_ & close & Hclose & Hband & _).
  - vm_compute. reflexivity.
  - injection Hclose as <-.
    apply (Hband 51000 49000); [reflexivity | reflexivity | discriminate].
Defined.

End SignalLaws.

(** ** The Execution Engine: paths, counters and the pending set *)

Module EngineLaws.

Import Engine EngineFacts.
Local Open Scope engine_scope.

(** *** Signals that produce no order *)

(** X15: a HOLD never produces an order, in any mode, at any price and
    strength: [execute_signal] returns None and leaves the engine, its risk
    manager and its counters exactly as they were. *)
Theorem hold_produces_no_order cfg price strength env e :
  execute_signal cfg HOLD price strength env e = (Ok None, e).
Proof.
  unfold execute_signal. run_engine.
  unfold Risk.can_trade.
  destruct (negb (Risk.mode_trades cfg)); simpl; [reflexivity|].
  destruct (negb (Risk._check_cooldown cfg (t_cooldown env) (risk_manager e)));
    simpl; [reflexivity|].
  reflexivity.
Qed.

Lemma can_trade_raises cfg signal price now now' rm x :
  Risk.can_trade cfg signal price now now' rm = Raise x →
  x = ZeroDivisionError ∧ signal = BUY ∧ (price == 0)%Q.
Proof.
  unfold Risk.can_trade, Risk._calculate_position_size.
  destruct (negb (Risk.mode_trades cfg)); simpl; [discriminate|].
  destruct (negb (Risk._check_cooldown cfg now rm)); simpl; [discriminate|].
  destruct signal; simpl.
  - destruct (bool_decide (is_Some (Risk.current_position rm))); simpl;
      [discriminate|].
    destruct (Qeq_bool price 0) eqn:E; simpl.
    + intros [= <-]. apply Qeq_bool_iff in E. done.
    + destruct (Qltb _ _); simpl; [discriminate|].
      destruct (Qltb _ _); discriminate.
  - destruct (negb (bool_decide (is_Some (Risk.current_position rm)))); discriminate.
  - discriminate.
Qed.

Lemma calculate_order_details_raises cfg signal price strength rm x :
  Risk.calculate_order_details cfg signal price strength rm = Raise x →
  x = ZeroDivisionError ∧ signal = BUY ∧ (price == 0)%Q.
Proof.
  unfold Risk.calculate_order_details, Risk._calculate_position_size.
  destruct signal; simpl.
  - destruct (Qeq_bool price 0) eqn:E; simpl; [|discriminate].
    intros [= <-]. apply Qeq_bool_iff in E. done.
  - destruct (Risk.current_position rm); discriminate.
  - destruct (Risk.current_position rm); discriminate.
Qed.

Lemma _execute_test_order_returns signal od price env e :
  compatible signal od →
  ∃ r e', _execute_test_order signal od price env e = (Ok r, e').
Proof.
  intros Hc. unfold _execute_test_order.
  destruct od; simpl in Hc; [| |done]; subst signal; run_engine; by eexists _, _.
Qed.

Lemma _execute_paper_order_returns signal od price env e :
  compatible signal od →
  ∃ r e', _execute_paper_order signal od price env e = (Ok r, e').
Proof.
  intros Hc. unfold _execute_paper_order.
  destruct od; simpl in Hc; [| |done]; subst signal; run_engine;
    rewrite lookup_insert_eq; simpl; by eexists _, _.
Qed.

Lemma try_except_returns {A} (body : M A) handler e :
  (∀ x e1, ∃ a e2, handler x e1 = (Ok a, e2)) →
  ∃ a e', try_except body handler e = (Ok a, e').
Proof.
  intros Hh. unfold try_except.
  destruct (body e) as [[a|x] e1]; [by eexists _, _ | apply Hh].
Qed.

Lemma _execute_live_order_returns cfg signal od price env e :
  ∃ r e', _execute_live_order cfg signal od price env e = (Ok r, e').
Proof.
  unfold _execute_live_order. apply try_except_returns.
  intros x e1. run_engine. by eexists _, _.
Qed.

(** X16: [execute_signal] raises in one case only: a BUY at price 0, where
    the position size divides by the price; the exception is
    ZeroDivisionError and the engine is left exactly as it was.  No execution
    path raises once the risk manager has sized the order. *)
Theorem execute_signal_raises_only_at_price_zero cfg signal price strength env e x :
  (execute_signal cfg signal price strength env e).1 = Raise x →
  x = ZeroDivisionError ∧ signal = BUY ∧ (price == 0)%Q
  ∧ (execute_signal cfg signal price strength env e).2 = e.
Proof.
  unfold execute_signal. run_engine.
  destruct (Risk.can_trade _ _ _ _ _ _) as [[can reason]|y] eqn:Hcan; simpl.
  - destruct (negb can); simpl; [discriminate|].
    destruct (Risk.calculate_order_details _ _ _ _ _) as [od|y] eqn:Hod; simpl.
    + destruct (is_empty od) eqn:Hempty; simpl; [discriminate|].
      pose proof (calculate_order_details_compatible _ _ _ _ _ _ Hod Hempty) as Hc.
      destruct (String.eqb (trading_mode cfg) "test").
      { destruct (_execute_test_order_returns signal od price env e Hc)
          as (r & e' & ->). discriminate. }
      destruct (String.eqb (trading_mode cfg) "paper").
      { destruct (_execute_paper_order_returns signal od price env e Hc)
          as (r & e' & ->). discriminate. }
      destruct (_execute_live_order_returns cfg signal od price env e)
        as (r & e' & ->). discriminate.
    + intros [= <-].
      destruct (calculate_order_details_raises _ _ _ _ _ _ Hod) as (-> & -> & Hp).
      done.
  - intros [= <-].
    destruct (can_trade_raises _ _ _ _ _ _ _ Hcan) as (-> & -> & Hp). done.
Qed.

Lemma execute_signal_raises_only_at_price_zero_witness :
  (execute_signal default_config BUY 0 1 (env_of CreateNothing [] false)
     (init Risk.funded)).2 = init Risk.funded.
Proof.
  apply (execute_signal_raises_only_at_price_zero default_config BUY 0 1
           (env_of CreateNothing [] false) (init Risk.funded) ZeroDivisionError).
  reflexivity.
Defined.

(** *** Waiting and reconciling *)

(** The parts of the engine that a fill-wait does not touch. *)
Definition same_books (e e' : ExecutionEngine) : Prop :=
  risk_manager e' = risk_manager e
  ∧ order_history e' = order_history e
  ∧ total_orders e' = total_orders e
  ∧ successful_orders e' = successful_orders e
  ∧ failed_orders e' = failed_orders e.

Lemma same_books_refl e : same_books e e.
Proof. by repeat split. Qed.

Lemma same_books_trans e1 e2 e3 :
  same_books e1 e2 → same_books e2 e3 → same_books e1 e3.
Proof.
  intros (?&?&?&?&?) (?&?&?&?&?). repeat split; congruence.
Qed.

Lemma poll_loop_same_books k r polls : ∀ e,
  same_books e (poll_loop k r polls e).2.
Proof.
  induction polls as [|p polls IH]; intros e; [apply same_books_refl|].
  simpl. run_engine.
  destruct (reply p) as [| |api]; simpl.
  - eapply same_books_trans; [|apply IH]. by repeat split.
  - eapply same_books_trans; [|apply IH]. by repeat split.
  - destruct (String.eqb (api_status api) "FILLED"); simpl.
    { destruct (pending_orders e !! k); simpl.
      - by repeat split.
      - eapply same_books_trans; [|apply IH]. by repeat split. }
    destruct (String.eqb (api_status api) "CANCELLED"
              || String.eqb (api_status api) "EXPIRED"); simpl.
    { destruct (pending_orders e !! k); simpl.
      - by repeat split.
      - eapply same_books_trans; [|apply IH]. by repeat split. }
    eapply same_books_trans; [|apply IH]. by repeat split.
Qed.

Lemma _wait_for_fill_same_books k polls c e :
  same_books e (_wait_for_fill k polls c e).2.
Proof.
  unfold _wait_for_fill. unfold bind at 1. unfold pending_get.
  destruct (pending_orders e !! k) as [r|]; [|apply same_books_refl].
  unfold bind at 1.
  pose proof (poll_loop_same_books k r polls e) as Hloop.
  destruct (poll_loop k r polls e) as [[b|x] e1]; simpl in *; [|exact Hloop].
  destruct b; [exact Hloop|].
  eapply same_books_trans; [exact Hloop|].
  run_engine. destruct c; simpl;
    destruct (pending_orders e1 !! k); simpl; by repeat split.
Qed.

Lemma _wait_for_fill_result k polls c e :
  (_wait_for_fill k polls c e).1 = Ok (pending_orders e !! k)
  ∧ pending_orders (_wait_for_fill k polls c e).2 = delete k (pending_orders e)
  ∧ ∀ r', pending_orders e !! k ≠ Some r' →
      heap (_wait_for_fill k polls c e).2 !! r' = heap e !! r'.
Proof.
  destruct (pending_orders e !! k) as [r|] eqn:Hk.
  - destruct (_wait_for_fill_spec k r polls c e Hk) as (e' & -> & Hp & Hh).
    simpl. split; [done|]. split; [done|].
    intros r' Hne. destruct Hh as [-> | (f & _ & ->)]; [done|].
    apply list_lookup_alter_ne. congruence.
  - rewrite (_wait_for_fill_absent _ _ _ _ Hk). simpl.
    split; [done|]. split; [|done]. symmetry. by apply delete_id.
Qed.

(** X17: whatever the gateway answers, [_wait_for_fill] returns without
    raising the order that was pending under the id (None if there was none),
    removes that id from the pending set, and touches nothing else: the risk
    manager, the order history, the three counters and every other order stay
    as they were. *)
Theorem wait_for_fill_frame k polls c e :
  (_wait_for_fill k polls c e).1 = Ok (pending_orders e !! k)
  ∧ pending_orders (_wait_for_fill k polls c e).2 = delete k (pending_orders e)
  ∧ (∀ r', pending_orders e !! k ≠ Some r' →
       heap (_wait_for_fill k polls c e).2 !! r' = heap e !! r')
  ∧ length (heap (_wait_for_fill k polls c e).2) = length (heap e)
  ∧ risk_manager (_wait_for_fill k polls c e).2 = risk_manager e
  ∧ order_history (_wait_for_fill k polls c e).2 = order_history e
  ∧ total_orders (_wait_for_fill k polls c e).2 = total_orders e
  ∧ successful_orders (_wait_for_fill k polls c e).2 = successful_orders e
  ∧ failed_orders (_wait_for_fill k polls c e).2 = failed_orders e.
Proof.
  destruct (_wait_for_fill_result k polls c e) as (Hres & Hp & Hother).
  destruct (_wait_for_fill_same_books k polls c e) as (?&?&?&?&?).
  repeat split; try done.
  destruct (pending_orders e !! k) as [r|] eqn:Hk.
  - destruct (_wait_for_fill_spec k r polls c e Hk) as (e' & -> & _ & Hh).
    simpl. destruct Hh as [-> | (f & _ & ->)]; [done|]. apply length_alter.
  - by rewrite (_wait_for_fill_absent _ _ _ _ Hk).
Qed.

Lemma wait_each_pending script ks : ∀ e,
  (wait_each script ks e).1 = Ok tt
  ∧ pending_orders (wait_each script ks e).2
    = foldl (λ m k, delete k m) (pending_orders e) ks
  ∧ same_books e (wait_each script ks e).2.
Proof.
  induction ks as [|k ks IH]; intros e; [by repeat split|].
  simpl. unfold bind.
  destruct (_wait_for_fill_result k (script k).1 (script k).2 e) as (Hres & Hp & _).
  pose proof (_wait_for_fill_same_books k (script k).1 (script k).2 e) as Hbooks.
  destruct (_wait_for_fill k (script k).1 (script k).2 e) as [res e1].
  simpl in *. subst res. destruct (IH e1) as (H1 & H2 & H3).
  split; [done|]. split; [by rewrite H2, Hp|].
  by eapply same_books_trans.
Qed.

Lemma delete_all_keys (m : gmap string nat) :
  foldl (λ m k, delete k m) m (map_to_list m).*1 = ∅.
Proof.
  assert (Hgen : ∀ ks (m : gmap string nat) i,
    foldl (λ m k, delete k m) m ks !! i
    = if bool_decide (i ∈ ks) then None else m !! i).
  { induction ks as [|k ks IH]; intros m' i; simpl.
    - done.
    - rewrite IH. destruct (decide (i = k)) as [->|Hne].
      + rewrite lookup_delete_eq.
        rewrite (bool_decide_eq_true_2 (k ∈ k :: ks)); [|apply elem_of_cons; by left].
        by destruct (bool_decide _).
      + rewrite lookup_delete_ne by done.
        destruct (decide (i ∈ ks)) as [Hin|Hnin].
        * rewrite (bool_decide_eq_true_2 _ Hin).
          rewrite bool_decide_eq_true_2; [done|]. apply elem_of_cons; by right.
        * rewrite (bool_decide_eq_false_2 _ Hnin).
          rewrite bool_decide_eq_false_2; [done|].
          intros Hin. apply elem_of_cons in Hin as [?|?]; done. }
  apply map_eq. intros i. rewrite Hgen, lookup_empty.
  destruct (m !! i) as [r|] eqn:Hi; [|by destruct (bool_decide _)].
  rewrite bool_decide_eq_true_2; [done|].
  apply list_elem_of_fmap. exists (i, r). split; [done|].
  by apply elem_of_map_to_list.
Qed.

(** X18: [check_pending_orders] never raises and always leaves the pending
    set empty: each pending order is waited for once and leaves the set
    whether it was filled, cancelled, timed out or could not be cancelled;
    the risk manager, the history and the counters are not touched. *)
Theorem check_pending_orders_empties script e :
  (check_pending_orders script e).1 = Ok tt
  ∧ pending_orders (check_pending_orders script e).2 = ∅
  ∧ risk_manager (check_pending_orders script e).2 = risk_manager e
  ∧ order_history (check_pending_orders script e).2 = order_history e
  ∧ total_orders (check_pending_orders script e).2 = total_orders e
  ∧ successful_orders (check_pending_orders script e).2 = successful_orders e
  ∧ failed_orders (check_pending_orders script e).2 = failed_orders e.
Proof.
  unfold check_pending_orders. unfold bind, get.
  destruct (wait_each_pending script (map_to_list (pending_orders e)).*1 e)
    as (H1 & H2 & (?&?&?&?&?)).
  split; [done|]. split; [|done].
  rewrite H2. apply delete_all_keys.
Qed.

Lemma poll_loop_skip k r pre l : ∀ e,
  forallb inconclusive pre = true →
  ∃ e1, poll_loop k r (pre ++ l) e = poll_loop k r l e1
    ∧ heap e1 = heap e ∧ pending_orders e1 = pending_orders e
    ∧ client_calls e1 = (client_calls e ++ replicate (length pre) (GetOrder k))%list.
Proof.
  induction pre as [|p pre IH]; intros e Hall.
  - exists e. repeat split. simpl. by rewrite app_nil_r.
  - simpl in Hall. apply andb_true_iff in Hall as [Hp Hall].
    assert (Hturn : poll_loop k r ((p :: pre) ++ l) e
                    = poll_loop k r (pre ++ l)
                        (set_client_calls (client_calls e ++ [GetOrder k]) e)).
    { simpl. run_engine. unfold inconclusive in Hp.
      destruct (reply p) as [| |api]; simpl; [done..|].
      apply negb_true_iff, orb_false_iff in Hp as [Hp Hexp].
      apply orb_false_iff in Hp as [Hfill Hcan].
      by rewrite Hfill, Hcan, Hexp. }
    rewrite Hturn.
    destruct (IH (set_client_calls (client_calls e ++ [GetOrder k]) e) Hall)
      as (e1 & -> & Hh & Hpend & Hcalls).
    exists e1. repeat split; try done.
    rewrite Hcalls. simpl. by rewrite <- app_assoc.
Qed.

(** The final assignment that a terminal reply makes. *)
Definition settlement (p : Poll) (api : ApiOrder) : Order → Order :=
  if String.eqb (api_status api) "FILLED"
  then fill (polled_at p) (average_filled_price api) (api_filled_size api)
  else cancel ("Order " +:+ api_status api).

Lemma poll_loop_conclusive k r p rest api e :
  pending_orders e !! k = Some r →
  reply p = GetOrderResponse api →
  api_status api = "FILLED" ∨ api_status api = "CANCELLED"
  ∨ api_status api = "EXPIRED" →
  ∃ e', poll_loop k r (p :: rest) e = (Ok true, e')
    ∧ heap e' = alter (settlement p api) r (heap e)
    ∧ pending_orders e' = delete k (pending_orders e)
    ∧ client_calls e' = (client_calls e ++ [GetOrder k])%list
    ∧ same_books e e'.
Proof.
  intros Hk Hreply Hstatus. simpl. run_engine. rewrite Hreply.
  unfold settlement.
  destruct Hstatus as [Hs | [Hs | Hs]]; rewrite Hs; simpl; rewrite Hk; simpl;
    eexists; by repeat split.
Qed.

(** X19: the first terminal reply decides a fill-wait.  If the replies before
    it decide nothing and it reports FILLED, the order is FILLED with the
    price, size and time of that reply; if it reports CANCELLED or EXPIRED,
    the order is CANCELLED with "Order CANCELLED" or "Order EXPIRED" as its
    error.  In both cases the order leaves the pending set, the gateway was
    polled exactly once per reply up to that one, later replies are not asked
    for and no cancel is sent. *)
Theorem first_terminal_reply_decides e k r pre p rest c api :
  pending_orders e !! k = Some r →
  forallb inconclusive pre = true →
  reply p = GetOrderResponse api →
  api_status api = "FILLED" ∨ api_status api = "CANCELLED"
  ∨ api_status api = "EXPIRED" →
  ∃ e', _wait_for_fill k (pre ++ p :: rest) c e = (Ok (Some r), e')
    ∧ heap e' = alter (settlement p api) r (heap e)
    ∧ pending_orders e' = delete k (pending_orders e)
    ∧ client_calls e'
      = (client_calls e ++ replicate (S (length pre)) (GetOrder k))%list.
Proof.
  intros Hk Hpre Hreply Hstatus.
  destruct (poll_loop_skip k r pre (p :: rest) e Hpre)
    as (e1 & Hskip & Hh1 & Hp1 & Hc1).
  destruct (poll_loop_conclusive k r p rest api e1) as (e2 & Hloop & Hh2 & Hp2 & Hc2 & _);
    [by rewrite Hp1 | done | done |].
  unfold _wait_for_fill, bind, pending_get. rewrite Hk, Hskip, Hloop.
  unfold ret. exists e2. split; [done|].
  rewrite Hh2, Hp2, Hc2, Hh1, Hp1, Hc1. repeat split.
  rewrite <- app_assoc. f_equal.
  change [GetOrder k] with (replicate 1 (GetOrder k)).
  rewrite <- replicate_add. f_equal. lia.
Qed.

Lemma first_terminal_reply_decides_witness :
  ∃ e', _wait_for_fill "test-123"
          ([status_reply "OPEN"; status_reply "OPEN"]
           ++ status_reply "EXPIRED" :: [status_reply "FILLED"]) true with_test_order
          = (Ok (Some 0%nat), e')
    ∧ (heap e' !! 0%nat ≫= error_message) = Some "Order EXPIRED"
    ∧ client_calls e' = replicate 3 (GetOrder "test-123").
Proof.
  destruct (first_terminal_reply_decides with_test_order "test-123" 0
              [status_reply "OPEN"; status_reply "OPEN"] (status_reply "EXPIRED")
              [status_reply "FILLED"] true
              {| api_status := "EXPIRED"; average_filled_price := 50010;
                 api_filled_size := 2 # 100 |})
    as (e' & Hrun & Hh & _ & Hc).
  - reflexivity.
  - reflexivity.
  - reflexivity.
  - right; right; reflexivity.
  - exists e'. split; [exact Hrun|]. rewrite Hh, Hc. split; reflexivity.
Defined.

(** *** The simulated paths *)

(** X20: in test mode a BUY at a price other than 0 is always executed,
    whatever the cooldown, the balance and the position: the order is created
    FILLED at the given price with the size of the sizing record, the position
    is opened (replacing any open one) at that price with the record's stop
    loss and take profit, the order is counted as successful and filed, and
    the pending set is not touched.  A SELL with a position open is FILLED the
    same way and closes the position at the given price; a SELL without a
    position produces no order and changes nothing. *)
Theorem test_mode_fills_at_once cfg price strength env e :
  trading_mode cfg = "test" →
  (¬ (price == 0)%Q →
     ∃ sz val sl tp risk profit,
       Risk.calculate_order_details cfg BUY price strength (risk_manager e)
         = Ok (Risk.BuyDetails sz val sl tp risk profit)
       ∧ execute_signal cfg BUY price strength env e
         = (Ok (Some (length (heap e))),
            booked (length (heap e))
              (Risk.state (Risk.open_position price sz sl tp (t_entry env) (t_trade env)
                             (risk_manager e)))
              (set_heap (heap e ++ [test_order_of e "buy" sz price env]) e)))
  ∧ (∀ p, Risk.current_position (risk_manager e) = Some p →
       execute_signal cfg SELL price strength env e
       = (Ok (Some (length (heap e))),
          booked (length (heap e))
            (Risk.state (Risk.close_position price (t_trade env) (risk_manager e)))
            (set_heap (heap e ++ [test_order_of e "sell" (Risk.size p) price env]) e)))
  ∧ (Risk.current_position (risk_manager e) = None →
       execute_signal cfg SELL price strength env e = (Ok None, e)).
Proof.
  intros Hmode.
  assert (Hgate : Risk.mode_trades cfg = false).
  { unfold Risk.mode_trades. by rewrite Hmode. }
  split; [|split].
  - intros Hprice. unfold execute_signal. run_engine.
    rewrite (RiskFacts.can_trade_test_mode _ _ _ _ _ _ Hgate). simpl.
    unfold Risk.calculate_order_details, Risk._calculate_position_size.
    rewrite (RiskLaws.Qeq_bool_false _ _ Hprice). simpl.
    rewrite Hmode. simpl.
    eexists _, _, _, _, _, _. split; reflexivity.
  - intros p Hp. unfold execute_signal. run_engine.
    rewrite (RiskFacts.can_trade_test_mode _ _ _ _ _ _ Hgate). simpl.
    unfold Risk.calculate_order_details. rewrite Hp. simpl.
    rewrite Hmode. simpl. reflexivity.
  - intros Hp. unfold execute_signal. run_engine.
    rewrite (RiskFacts.can_trade_test_mode _ _ _ _ _ _ Hgate). simpl.
    unfold Risk.calculate_order_details. rewrite Hp. simpl. reflexivity.
Qed.

Lemma test_mode_fills_at_once_witness :
  (∃ r e', execute_signal default_config BUY 50000 1 (env_of CreateNothing [] false)
             (init Risk.holding) = (Ok (Some r), e')
           ∧ Risk.entry_price <$> Risk.current_position (risk_manager e')
             = Some 50000%Q)
  ∧ execute_signal default_config SELL 50000 1 (env_of CreateNothing [] false)
      (init Risk.funded) = (Ok None, init Risk.funded).
Proof.
  destruct (test_mode_fills_at_once default_config 50000 1
              (env_of CreateNothing [] false) (init Risk.holding) eq_refl)
    as (Hbuy & _).
  destruct (test_mode_fills_at_once default_config 50000 1
              (env_of CreateNothing [] false) (init Risk.funded) eq_refl)
    as (_ & _ & Hnone).
  split.
  - destruct Hbuy as (sz & val & sl & tp & risk & profit & _ & Hrun);
      [discriminate|].
    eexists _, _. split; [exact Hrun|]. reflexivity.
  - apply Hnone. reflexivity.
Defined.

(** X21: in paper mode an admitted order is filled with a slippage of one
    per mille against the trader: a BUY at price × 1.001, where the position
    is then opened, and a SELL at price × 0.999, where the position is then
    closed; the order is returned FILLED with that fill price, and its id
    "PAPER-n" is no longer in the pending set afterwards. *)
Theorem paper_mode_fills_with_slippage cfg signal price strength env e reason od :
  trading_mode cfg = "paper" →
  Risk.can_trade cfg signal price (t_cooldown env) (t_remaining env) (risk_manager e)
    = Ok (true, reason) →
  Risk.calculate_order_details cfg signal price strength (risk_manager e) = Ok od →
  is_empty od = false →
  ∃ e' side sz,
    execute_signal cfg signal price strength env e = (Ok (Some (length (heap e))), e')
    ∧ details_side od = Ok side ∧ details_size od = Ok sz
    ∧ heap e' = (heap e ++ [fill (t_filled env) (paper_fill_price signal price) sz
                              (paper_order e side sz price env)])%list
    ∧ pending_orders e' = delete ("PAPER-" +:+ pretty (total_orders e)) (pending_orders e)
    ∧ total_orders e' = S (total_orders e)
    ∧ successful_orders e' = S (successful_orders e)
    ∧ order_history e' = (order_history e ++ [Some (length (heap e))])%list
    ∧ risk_manager e'
      = match od with
        | Risk.BuyDetails _ _ sl tp _ _ =>
            Risk.state (Risk.open_position (paper_fill_price signal price) sz sl tp
                          (t_entry env) (t_trade env) (risk_manager e))
        | _ =>
            Risk.state (Risk.close_position (paper_fill_price signal price)
                          (t_trade env) (risk_manager e))
        end.
Proof.
  intros Hmode Hcan Hod Hempty.
  pose proof (calculate_order_details_compatible _ _ _ _ _ _ Hod Hempty) as Hc.
  unfold execute_signal. run_engine. rewrite Hcan. simpl. rewrite Hod. simpl.
  rewrite Hempty, Hmode. simpl.
  unfold _execute_paper_order.
  destruct od as [s v sl tp ra pp | s v ep xp pnl |]; simpl in Hc; [| |done];
    subst signal; run_engine; rewrite lookup_insert_eq; simpl;
    eexists _, _, _; repeat split;
    rewrite ?delete_insert_eq; try reflexivity.
  - rewrite alter_app_r_alt by (simpl; lia).
    by rewrite Nat.sub_diag.
  - rewrite alter_app_r_alt by (simpl; lia).
    by rewrite Nat.sub_diag.
Qed.

Lemma paper_mode_fills_with_slippage_witness :
  ∃ e', execute_signal paper_config BUY 50000 1 (env_of CreateNothing [] false)
          (init Risk.funded) = (Ok (Some 0%nat), e')
    ∧ (heap e' !! 0%nat ≫= filled_price) = Some (50000 * (1 + (1 # 1000)))%Q
    ∧ pending_orders e' !! "PAPER-0" = None.
Proof.
  destruct (paper_mode_fills_with_slippage paper_config BUY 50000 1
              (env_of CreateNothing [] false) (init Risk.funded)
              _ _ eq_refl eq_refl eq_refl eq_refl)
    as (e' & side & sz & Hrun & _ & _ & Hh & Hp & _).
  exists e'. split; [exact Hrun|]. rewrite Hh, Hp. split; [reflexivity|].
  apply lookup_delete_eq.
Defined.

End EngineLaws.
